(** * Chaos-CG-Model: the coherence-gradient propagator model

    A shallow embedding of [src/cg_model.py] (class [CGModel]) and the
    properties of its trajectory evolution, pairwise distance, exponent
    estimation and spectral diagnostics.

    Scalars are IEEE 754 binary64 values ([dtype=float]), taken from the
    Standard Library's executable specification [SpecFloat]: addition,
    subtraction, multiplication and square root are the correctly rounded
    operations, so that overflow, infinities and NaN behave as they do in
    the program.  The routines the program obtains from numerical
    libraries whose results are not fixed bit for bit ([np.log],
    [np.polyfit], [np.linalg.eigvals], [np.linalg.svd]) are the fields of
    a record [numpy]; every statement holds for all of its inhabitants. *)

From Stdlib Require Import String.
From Stdlib Require Import ZArith List Bool Lia.
From Stdlib Require Import Floats.SpecFloat.
Import ListNotations.

(** ** IEEE 754 binary64 *)

Module Float64.

Definition f64 : Type := spec_float.

Definition prec : Z := 53.
Definition emax : Z := 1024.

Definition zero : f64 := S754_zero false.
Definition nan : f64 := S754_nan.
Definition inf : f64 := S754_infinity false.
Definition neg_inf : f64 := S754_infinity true.

(** [of_pow2 k] is the double [2.0 ** k], for a normal exponent [k]. *)
Definition of_pow2 (k : Z) : f64 :=
  S754_finite false (2 ^ 52)%positive (k - 52).

Definition one : f64 := of_pow2 0.

Definition add : f64 -> f64 -> f64 := SFadd prec emax.
Definition sub : f64 -> f64 -> f64 := SFsub prec emax.
Definition mul : f64 -> f64 -> f64 := SFmul prec emax.
Definition sqrt : f64 -> f64 := SFsqrt prec emax.

(** [x <= y], false as soon as one side is NaN. *)
Definition leb : f64 -> f64 -> bool := SFleb.

Definition is_nan (x : f64) : bool :=
  match x with S754_nan => true | _ => false end.

(** [np.isfinite]: neither an infinity nor NaN. *)
Definition is_finite (x : f64) : bool :=
  match x with
  | S754_zero _ | S754_finite _ _ _ => true
  | S754_infinity _ | S754_nan => false
  end.

End Float64.

Import Float64.

(** ** The part of numpy the model uses *)

(** An array: its shape and its entries in row-major order. *)
Record ndarray : Type := mk_ndarray {
  shape : list nat;
  data : list f64
}.

Definition ndim (a : ndarray) : nat := length (shape a).

(** [a.shape[i]]; the program reads an index only below [a.ndim]. *)
Definition shape_at (a : ndarray) (i : nat) : nat := nth i (shape a) 0.

(** [np.array(a, dtype=float)]: a fresh copy with the same shape and entries. *)
Definition np_array (a : ndarray) : ndarray :=
  {| shape := shape a; data := data a |}.

Definition vector : Type := list f64.

(** A one-dimensional array holding [v]. *)
Definition of_vector (v : vector) : ndarray :=
  {| shape := [length v]; data := v |}.

(** A two-dimensional array from its rows, all of length [cols]. *)
Definition of_rows (cols : nat) (rows : list vector) : ndarray :=
  {| shape := [length rows; cols]; data := concat rows |}.

Definition zip_with {A B C : Type} (f : A -> B -> C) (xs : list A) (ys : list B)
  : list C :=
  map (fun p => f (fst p) (snd p)) (combine xs ys).

(** Row [i] of a two-dimensional array. *)
Definition row (a : ndarray) (i : nat) : vector :=
  firstn (shape_at a 1) (skipn (i * shape_at a 1) (data a)).

(** Column [j] of a two-dimensional array. *)
Definition col (a : ndarray) (j : nat) : vector :=
  map (fun i => nth j (row a i) zero) (seq 0 (shape_at a 0)).

(** Inner product: every product rounded, the products accumulated from
    left to right, every partial sum rounded.  numpy hands [@] to a BLAS
    kernel, which may fuse a product with the addition or add in another
    order, so on inexact products the last bits of [dot], [matvec] and
    [matmul] can differ from the program's.  No statement below depends
    on how a product or a sum rounds. *)
Definition dot (u v : vector) : f64 :=
  fold_left add (zip_with mul u v) zero.

(** [a @ v] for a two-dimensional [a] and a one-dimensional [v]. *)
Definition matvec (a : ndarray) (v : vector) : vector :=
  map (fun i => dot (row a i) v) (seq 0 (shape_at a 0)).

(** [a @ b] for two-dimensional arrays. *)
Definition matmul (a b : ndarray) : ndarray :=
  of_rows (shape_at b 1)
    (map (fun i => map (fun j => dot (row a i) (col b j)) (seq 0 (shape_at b 1)))
         (seq 0 (shape_at a 0))).

(** [np.linalg.norm(x)] of a row: the square root of the sum of squares,
    here added from left to right ([np.add.reduce] adds long rows
    pairwise).  The statements below about zero, NaN, the sign and the
    exchange of the two vectors hold for any order of the sum. *)
Definition norm (v : vector) : f64 :=
  sqrt (fold_left add (map (fun x => mul x x) v) zero).

(** [np.linalg.norm(x - y, axis=1)] for [x] and [y] given by their rows. *)
Definition norm_rows_diff (x y : list vector) : list f64 :=
  map norm (zip_with (zip_with sub) x y).

(** [np.arange(n)]. *)
Definition arange (n : nat) : list Z := map Z.of_nat (seq 0 n).

(** Python's reading of one bound of a slice over a sequence of length [len]. *)
Definition slice_bound (len i : Z) : Z :=
  if (i <? 0)%Z then Z.max (i + len) 0 else Z.min i len.

(** [l[start:stop]]. *)
Definition py_slice {A : Type} (l : list A) (start stop : Z) : list A :=
  let len := Z.of_nat (length l) in
  let lo := slice_bound len start in
  let hi := slice_bound len stop in
  firstn (Z.to_nat (hi - lo)) (skipn (Z.to_nat lo) l).

(** [np.maximum] on two scalars: NaN wins. *)
Definition maximum (a b : f64) : f64 :=
  if leb b a || is_nan a then a else b.

(** [np.linalg.matrix_power(a, n)] for [n >= 1]: the short cuts for 1, 2
    and 3, and binary decomposition of the exponent above. *)
Fixpoint power_bits (z : ndarray) (result : option ndarray) (n : positive)
  : ndarray :=
  let result' := match result with None => z | Some r => matmul r z end in
  match n with
  | xH => result'
  | xO n' => power_bits (matmul z z) result n'
  | xI n' => power_bits (matmul z z) (Some result') n'
  end.

Definition matrix_power (a : ndarray) (n : positive) : ndarray :=
  match n with
  | 1%positive => a
  | 2%positive => matmul a a
  | 3%positive => matmul (matmul a a) a
  | _ => power_bits a None n
  end.

Definition complex : Type := (f64 * f64)%type.

(** The library routines whose numerical results the model leaves open.
    [None] stands for the [LinAlgError] they raise. *)
Record numpy : Type := {
  np_log : f64 -> f64;
  np_abs : complex -> f64;
  np_polyfit : list Z -> list f64 -> option (f64 * f64);
  linalg_eigvals : ndarray -> option (list complex);
  linalg_svd : ndarray -> option (list f64)
}.

(** ** Exceptions and the work done before them *)

Inductive exn : Type :=
| ValueError (msg : string)
| LinAlgError.

Inductive outcome (A : Type) : Type :=
| Ok (a : A)
| Raise (e : exn).

Arguments Ok {A} a.
Arguments Raise {A} e.

(** A computation: how many matrix-vector products it performed, and how
    it ended. *)
Definition M (A : Type) : Type := (nat * outcome A)%type.

Definition work {A : Type} (c : M A) : nat := fst c.
Definition result {A : Type} (c : M A) : outcome A := snd c.

Definition ret {A : Type} (a : A) : M A := (0, Ok a).
Definition raise {A : Type} (e : exn) : M A := (0, Raise e).

Definition bind {A B : Type} (c : M A) (k : A -> M B) : M B :=
  match c with
  | (n, Ok a) => let (m, r) := k a in (n + m, r)
  | (n, Raise e) => (n, Raise e)
  end.

(** One matrix-vector product. *)
Definition apply_propagator (T : ndarray) (psi : vector) : M vector :=
  (1, Ok (matvec T psi)).

(** A library call that may raise [LinAlgError]. *)
Definition linalg {A : Type} (r : option A) : M A :=
  match r with
  | Some a => ret a
  | None => raise LinAlgError
  end.

Declare Scope cg_scope.
Delimit Scope cg_scope with cg.
Notation "x <- c ;; k" := (bind c (fun x => k))
  (at level 61, c at next level, right associativity) : cg_scope.
Notation "' p <- c ;; k" := (bind c (fun p => k))
  (at level 61, p pattern, c at next level, right associativity) : cg_scope.
Open Scope cg_scope.

(** [np.max] of a one-dimensional array. *)
Definition np_max (xs : list f64) : M f64 :=
  match xs with
  | [] => raise (ValueError
      "zero-size array to reduction operation maximum which has no identity"%string)
  | x :: rest => ret (fold_left maximum rest x)
  end.

(** ** The model: [class CGModel] *)

Record CGModel : Type := { T_infty : ndarray }.

(** The dimension [d] of the model. *)
Definition dim (self : CGModel) : nat := shape_at (T_infty self) 0.

Definition __post_init__ (T : ndarray) : M CGModel :=
  let T := np_array T in
  if negb (ndim T =? 2) || negb (shape_at T 0 =? shape_at T 1)
  then raise (ValueError "T_infty must be a square 2D array"%string)
  else ret {| T_infty := T |}.

(** The loop of [evolve]: [n] iterations, each appending [T_infty @ psi]. *)
Fixpoint evolve_loop (T : ndarray) (psi : vector) (traj : list vector) (n : nat)
  : M (list vector) :=
  match n with
  | O => ret traj
  | S n' =>
      psi' <- apply_propagator T psi ;;
      evolve_loop T psi' (traj ++ [psi']) n'
  end.

(** [evolve]; the rows of the returned array. [range(n_steps)] is empty
    for a negative [n_steps]. *)
Definition evolve (self : CGModel) (psi0 : ndarray) (n_steps : Z)
  : M (list vector) :=
  let psi := np_array psi0 in
  if negb (ndim psi =? 1) || negb (shape_at psi 0 =? shape_at (T_infty self) 0)
  then raise (ValueError "psi0 must be a 1D array compatible with T_infty"%string)
  else evolve_loop (T_infty self) (data psi) [data psi] (Z.to_nat n_steps).

Definition evolve_pair (self : CGModel) (psi0 psi0_prime : ndarray) (n_steps : Z)
  : M (list vector * list vector * list f64) :=
  psi_traj <- evolve self psi0 n_steps ;;
  psi_traj_prime <- evolve self psi0_prime n_steps ;;
  let D_n := norm_rows_diff psi_traj psi_traj_prime in
  ret (psi_traj, psi_traj_prime, D_n).

Definition estimate_lambda_CG (np : numpy) (self : CGModel)
    (psi0 psi0_prime : ndarray) (n_steps fit_start fit_end : Z)
  : M (f64 * list Z * list f64) :=
  '(_, _, D_n) <- evolve_pair self psi0 psi0_prime n_steps ;;
  let n_all := arange (length D_n) in
  let fit_start := Z.max fit_start 0 in
  let fit_end := Z.min fit_end (Z.of_nat (length D_n) - 1) in
  if (fit_end <=? fit_start + 1)%Z
  then raise (ValueError "Fit window too small."%string)
  else
    let n_fit := py_slice n_all fit_start fit_end in
    let logD_fit := map (np_log np) (py_slice D_n fit_start fit_end) in
    '(slope, intercept) <- linalg (np_polyfit np n_fit logD_fit) ;;
    let lambda_hat := slope in
    ret (lambda_hat, n_fit, logD_fit).

Definition spectral_radius (np : numpy) (self : CGModel) : M f64 :=
  eigvals <- linalg (linalg_eigvals np (T_infty self)) ;;
  np_max (map (np_abs np) eigvals).

Definition operator_norm (np : numpy) (self : CGModel) : M f64 :=
  svals <- linalg (linalg_svd np (T_infty self)) ;;
  np_max svals.

Definition power_norm (np : numpy) (self : CGModel) (n : Z) : M f64 :=
  if (n <? 1)%Z
  then raise (ValueError "n must be >= 1"%string)
  else
    let Tn := matrix_power (T_infty self) (Z.to_pos n) in
    svals <- linalg (linalg_svd np Tn) ;;
    np_max svals.

(** The defaults of [estimate_lambda_CG]. *)
Definition default_n_steps : Z := 200.
Definition default_fit_start : Z := 10.
Definition default_fit_end : Z := 150.

(** A model as the program can hold one: the value of a construction. *)
Definition constructed (self : CGModel) : Prop :=
  exists T : ndarray, result (__post_init__ T) = Ok self.

(** A vector [evolve] accepts for the model. *)
Definition valid_vector (self : CGModel) (psi0 : ndarray) : Prop :=
  ndim psi0 = 1 /\ shape_at psi0 0 = dim self.

(** ** Functions used to state the properties *)

(** The vectors the loop of [evolve] appends: [T psi], [T (T psi)], ... *)
Fixpoint orbit (T : ndarray) (psi : vector) (n : nat) : list vector :=
  match n with
  | O => []
  | S n' => let psi' := matvec T psi in psi' :: orbit T psi' n'
  end.

(** The integers [lo], [lo + 1], ..., [hi - 1]. *)
Definition Zrange (lo hi : Z) : list Z :=
  map Z.of_nat (seq (Z.to_nat lo) (Z.to_nat (hi - lo))).

(** How [estimate_lambda_CG] ends once [np.polyfit] has been called on the
    indices [n_fit] and the values [logD_fit]. *)
Definition fit_result (np : numpy) (n_fit : list Z) (logD_fit : list f64)
  : outcome (f64 * list Z * list f64) :=
  match np_polyfit np n_fit logD_fit with
  | Some (slope, _) => Ok (slope, n_fit, logD_fit)
  | None => Raise LinAlgError
  end.

Definition shape_error : exn :=
  ValueError "psi0 must be a 1D array compatible with T_infty"%string.

Definition window_error : exn := ValueError "Fit window too small."%string.

Definition valid_vectorb (self : CGModel) (psi0 : ndarray) : bool :=
  (ndim psi0 =? 1) && (shape_at psi0 0 =? dim self).

Definition all_finite (traj : list vector) : Prop :=
  Forall (Forall (fun x => is_finite x = true)) traj.

(** ** Sample models and vectors *)

Definition two : f64 := of_pow2 1.

(** [T = [[1.0]]] and [psi0 = [1.0]]. *)
Definition unit_model : CGModel := {| T_infty := of_rows 1 [[one]] |}.
Definition unit_vector : ndarray := of_vector [one].

(** [T = [[1.0, 2.0], [0.0, 1.0]]] and [psi0 = [1.0, 1.0]]. *)
Definition shear_model : CGModel :=
  {| T_infty := of_rows 2 [[one; two]; [zero; one]] |}.
Definition shear_vector : ndarray := of_vector [one; one].
Definition shear_vector' : ndarray := of_vector [one; two].

(** [T = [[2.0 ** 600]]] and [psi0 = [2.0 ** 600]]: one step overflows. *)
Definition huge_model : CGModel := {| T_infty := of_rows 1 [[of_pow2 600]] |}.
Definition huge_vector : ndarray := of_vector [of_pow2 600].

(** [np.zeros((0, 0))], [np.array([[np.nan]])] and [np.array([])]. *)
Definition empty_matrix : ndarray := of_rows 0 [].
Definition nan_matrix : ndarray := of_rows 1 [[nan]].
Definition empty_vector : ndarray := of_vector [].

(** An inhabitant of [numpy] for the examples.  The properties below hold
    for every inhabitant, so the values it returns play no role. *)
Definition sample_numpy : numpy :=
  {| np_log := fun _ => nan;
     np_abs := fun _ => nan;
     np_polyfit := fun _ _ => Some (nan, nan);
     linalg_eigvals := fun _ => None;
     linalg_svd := fun _ => None |}.

(** ** The pentagon propagator: [build_pentagon_circulation_propagator] *)

(** [np.eye(n)] and [np.zeros((n, m))]. *)
Definition np_eye (n : nat) : ndarray :=
  of_rows n
    (map (fun r => map (fun c => if r =? c then one else zero) (seq 0 n))
         (seq 0 n)).

Definition np_zeros (n m : nat) : ndarray :=
  of_rows m (repeat (repeat zero m) n).

(** [l[k] = v] for [k] below [len(l)]. *)
Fixpoint list_set {A : Type} (l : list A) (k : nat) (v : A) : list A :=
  match l, k with
  | [], _ => []
  | _ :: rest, O => v :: rest
  | x :: rest, S k' => x :: list_set rest k' v
  end.

(** [a[r, c] = v] on a two-dimensional array, [r] and [c] within its shape. *)
Definition setitem (a : ndarray) (r c : nat) (v : f64) : ndarray :=
  {| shape := shape a; data := list_set (data a) (r * shape_at a 1 + c) v |}.

(** [a[r, c]]. *)
Definition getitem (a : ndarray) (r c : nat) : f64 :=
  nth (r * shape_at a 1 + c) (data a) zero.

(** [s * a] and [a + b] on arrays of one shape. *)
Definition scale (s : f64) (a : ndarray) : ndarray :=
  {| shape := shape a; data := map (mul s) (data a) |}.

Definition array_add (a b : ndarray) : ndarray :=
  {| shape := shape a; data := zip_with add (data a) (data b) |}.

Definition build_pentagon_circulation_propagator (eta damping : f64) : ndarray :=
  let n := 5 in
  let I := np_eye n in
  let A := np_zeros n n in
  let A := fold_left (fun A i => let j := (i + 1) mod n in setitem A j i one)
                     (seq 0 n) A in
  let T := array_add (scale (sub one damping) I) (scale eta A) in
  T.

(** ** Predicates on binary64 values used to state the properties *)

(** NaN, or a value whose sign bit is clear: [+0.0], a positive number or
    [+inf]. *)
Definition not_negative (x : f64) : bool :=
  match x with
  | S754_zero false | S754_infinity false | S754_finite false _ _ => true
  | S754_nan => true
  | _ => false
  end.

(** An array as numpy holds it: as many entries as its shape announces. *)
Definition well_formed (a : ndarray) : Prop :=
  length (data a) = fold_right Nat.mul 1 (shape a).

(** ** Arithmetic of binary64 used below *)

Module Float64Facts.

Lemma sub_diag (x : f64) : is_finite x = true -> sub x x = zero.
Proof.
  destruct x as [s | s | | s m e]; simpl; try discriminate; intros _.
  - destruct s; reflexivity.
  - unfold sub, SFsub.
    replace (Z.min e e) with e by (symmetry; apply Z.min_id).
    unfold shl_align. rewrite !Z.sub_diag. reflexivity.
Qed.

Lemma sub_diag_not_finite (x : f64) : is_finite x = false -> sub x x = nan.
Proof.
  destruct x as [s | s | | s m e]; simpl; try discriminate; intros _.
  - destruct s; reflexivity.
  - reflexivity.
Qed.

Lemma mul_zero : mul zero zero = zero.
Proof. reflexivity. Qed.

Lemma add_zero : add zero zero = zero.
Proof. reflexivity. Qed.

Lemma sqrt_zero : sqrt zero = zero.
Proof. reflexivity. Qed.

Lemma mul_nan : mul nan nan = nan.
Proof. reflexivity. Qed.

Lemma add_nan_l (x : f64) : add nan x = nan.
Proof. reflexivity. Qed.

Lemma add_nan_r (x : f64) : add x nan = nan.
Proof. now destruct x. Qed.

Lemma sqrt_nan : sqrt nan = nan.
Proof. reflexivity. Qed.

End Float64Facts.

(** ** Rows, norms and slices *)

Section Lists.

Lemma fold_add_zero (v : list f64) :
  Forall (fun x => x = zero) v -> fold_left add v zero = zero.
Proof.
  induction 1 as [| x v Hx _ IH]; cbn [fold_left]; [reflexivity |].
  subst x. rewrite Float64Facts.add_zero. exact IH.
Qed.

Lemma zip_with_sub_diag (v : vector) :
  Forall (fun x => is_finite x = true) v ->
  Forall (fun x => x = zero) (zip_with sub v v).
Proof.
  unfold zip_with.
  induction 1 as [| x v Hx _ IH]; cbn [combine map fst snd];
    constructor; auto.
  now apply Float64Facts.sub_diag.
Qed.

Lemma norm_diff_diag (v : vector) :
  Forall (fun x => is_finite x = true) v -> norm (zip_with sub v v) = zero.
Proof.
  intros Hv. unfold norm. rewrite fold_add_zero.
  - apply Float64Facts.sqrt_zero.
  - apply Forall_map.
    eapply Forall_impl; [| apply zip_with_sub_diag, Hv].
    intros x ->. apply Float64Facts.mul_zero.
Qed.

Lemma fold_add_nan (v : list f64) : fold_left add v nan = nan.
Proof.
  induction v as [| x v IH]; cbn [fold_left]; [reflexivity |].
  now rewrite Float64Facts.add_nan_l.
Qed.

Lemma fold_add_In_nan (v : list f64) :
  forall acc, In nan v -> fold_left add v acc = nan.
Proof.
  induction v as [| x v IH]; intros acc Hin; [contradiction |].
  cbn [fold_left]. destruct Hin as [-> | Hin].
  - rewrite Float64Facts.add_nan_r. apply fold_add_nan.
  - now apply IH.
Qed.

Lemma zip_with_diag {A B : Type} (f : A -> A -> B) (l : list A) :
  zip_with f l l = map (fun x => f x x) l.
Proof.
  unfold zip_with. induction l as [| x l IH]; simpl; [reflexivity |].
  now rewrite IH.
Qed.

(** The distance of a vector to itself: zero, unless an entry is
    infinite or NaN. *)
Lemma norm_diff_diag_cases (v : vector) :
  norm (zip_with sub v v) = if forallb is_finite v then zero else nan.
Proof.
  destruct (forallb is_finite v) eqn:Hv.
  - apply norm_diff_diag, Forall_forall. now apply forallb_forall.
  - unfold norm. rewrite fold_add_In_nan; [apply Float64Facts.sqrt_nan |].
    rewrite zip_with_diag, map_map.
    induction v as [| x v IH]; [discriminate |].
    cbn [forallb map In] in *. apply andb_false_iff in Hv.
    destruct (is_finite x) eqn:Hx.
    + right. apply IH. now destruct Hv.
    + left. rewrite Float64Facts.sub_diag_not_finite by exact Hx.
      apply Float64Facts.mul_nan.
Qed.

Lemma norm_rows_diff_diag_cases (traj : list vector) :
  norm_rows_diff traj traj =
  map (fun psi => if forallb is_finite psi then zero else nan) traj.
Proof.
  unfold norm_rows_diff. rewrite zip_with_diag, map_map.
  apply map_ext. intros v. apply norm_diff_diag_cases.
Qed.

Lemma norm_rows_diff_diag (traj : list vector) :
  all_finite traj -> Forall (fun d => d = zero) (norm_rows_diff traj traj).
Proof.
  unfold norm_rows_diff, zip_with at 1.
  induction 1 as [| v traj Hv _ IH]; cbn [combine map fst snd];
    constructor; auto.
  now apply norm_diff_diag.
Qed.

Lemma norm_rows_diff_length (x y : list vector) :
  length x = length y -> length (norm_rows_diff x y) = length x.
Proof.
  intros H. unfold norm_rows_diff, zip_with, vector in *.
  rewrite !length_map, length_combine. lia.
Qed.

Lemma py_slice_inside {A : Type} (l : list A) (lo hi : Z) :
  (0 <= lo <= hi)%Z -> (hi <= Z.of_nat (length l))%Z ->
  py_slice l lo hi = firstn (Z.to_nat (hi - lo)) (skipn (Z.to_nat lo) l).
Proof.
  intros Hlo Hhi. unfold py_slice, slice_bound.
  destruct (Z.ltb_spec lo 0); [lia |].
  destruct (Z.ltb_spec hi 0); [lia |].
  now rewrite !Z.min_l by lia.
Qed.

Lemma py_slice_length {A : Type} (l : list A) (lo hi : Z) :
  (0 <= lo <= hi)%Z -> (hi <= Z.of_nat (length l))%Z ->
  Z.of_nat (length (py_slice l lo hi)) = (hi - lo)%Z.
Proof.
  intros Hlo Hhi. rewrite py_slice_inside by assumption.
  rewrite length_firstn, length_skipn. lia.
Qed.

Lemma py_slice_nth {A : Type} (l : list A) (lo hi : Z) (k : nat) (d : A) :
  (0 <= lo <= hi)%Z -> (hi <= Z.of_nat (length l))%Z ->
  (Z.of_nat k < hi - lo)%Z ->
  nth k (py_slice l lo hi) d = nth (Z.to_nat lo + k) l d.
Proof.
  intros Hlo Hhi Hk. rewrite py_slice_inside by assumption.
  rewrite nth_firstn.
  destruct (Nat.ltb_spec k (Z.to_nat (hi - lo))); [| lia].
  now rewrite nth_skipn.
Qed.

Lemma In_Zrange (lo hi i : Z) :
  (0 <= lo)%Z -> In i (Zrange lo hi) <-> (lo <= i < hi)%Z.
Proof.
  intros Hlo. unfold Zrange. rewrite in_map_iff. split.
  - intros (k & <- & Hk). apply in_seq in Hk. lia.
  - intros Hi. exists (Z.to_nat i). split; [lia |]. apply in_seq. lia.
Qed.

Lemma py_slice_map_nth {A : Type} (l : list A) (lo hi : Z) (d : A) :
  (0 <= lo <= hi)%Z -> (hi <= Z.of_nat (length l))%Z ->
  py_slice l lo hi = map (fun i => nth (Z.to_nat i) l d) (Zrange lo hi).
Proof.
  intros Hlo Hhi.
  apply nth_ext with (d := d) (d' := nth (Z.to_nat 0) l d).
  - apply Nat2Z.inj. rewrite py_slice_length by assumption.
    unfold Zrange. rewrite !length_map, length_seq. lia.
  - intros k Hk.
    assert (Hk' : (Z.of_nat k < hi - lo)%Z).
    { rewrite <- (py_slice_length l) by eassumption. lia. }
    rewrite py_slice_nth by assumption.
    rewrite (map_nth (fun i => nth (Z.to_nat i) l d)).
    unfold Zrange.
    rewrite nth_indep with (d' := Z.of_nat 0)
      by (rewrite length_map, length_seq; lia).
    rewrite map_nth, seq_nth by lia. f_equal. lia.
Qed.

Lemma py_slice_arange (n : nat) (lo hi : Z) :
  (0 <= lo <= hi)%Z -> (hi <= Z.of_nat n)%Z ->
  py_slice (arange n) lo hi = Zrange lo hi.
Proof.
  intros Hlo Hhi.
  assert (Hn : length (arange n) = n)
    by (unfold arange; now rewrite length_map, length_seq).
  rewrite py_slice_map_nth with (d := 0%Z) by (rewrite ?Hn; lia).
  rewrite <- (map_id (Zrange lo hi)) at 2.
  apply map_ext_in. intros i Hi. apply In_Zrange in Hi; [| lia].
  unfold arange.
  rewrite nth_indep with (d' := Z.of_nat 0)
    by (rewrite length_map, length_seq; lia).
  rewrite map_nth, seq_nth by lia. lia.
Qed.

End Lists.

(** ** Runs of the model *)

Section Runs.

Lemma result_bind {A B : Type} (c : M A) (k : A -> M B) :
  result (bind c k) =
  match result c with Ok a => result (k a) | Raise e => Raise e end.
Proof.
  destruct c as [n [a | e]]; simpl; [| reflexivity].
  now destruct (k a).
Qed.

Lemma work_bind {A B : Type} (c : M A) (k : A -> M B) :
  work (bind c k) =
  work c + match result c with Ok a => work (k a) | Raise _ => 0 end.
Proof.
  destruct c as [n [a | e]]; simpl; [| lia].
  now destruct (k a).
Qed.

Lemma run_eq {A : Type} (c : M A) : c = (work c, result c).
Proof. now destruct c. Qed.

Lemma orbit_length (T : ndarray) (n : nat) :
  forall psi, length (orbit T psi n) = n.
Proof. induction n as [| n IH]; intros psi; simpl; [| rewrite IH]; reflexivity. Qed.

Lemma orbit_step (T : ndarray) (n : nat) :
  forall psi k, k < n ->
  exists x, nth_error (psi :: orbit T psi n) k = Some x /\
            nth_error (psi :: orbit T psi n) (S k) = Some (matvec T x).
Proof.
  induction n as [| n IH]; intros psi k Hk; [lia |].
  destruct k as [| k].
  - exists psi. split; reflexivity.
  - destruct (IH (matvec T psi) k) as (x & Hx & Hx'); [lia |].
    exists x. split; assumption.
Qed.

Lemma evolve_loop_run (T : ndarray) (n : nat) :
  forall psi traj,
  evolve_loop T psi traj n = (n, Ok (traj ++ orbit T psi n)).
Proof.
  induction n as [| n IH]; intros psi traj; simpl.
  - now rewrite app_nil_r.
  - rewrite IH, <- app_assoc. reflexivity.
Qed.

Lemma valid_vectorb_spec (self : CGModel) (psi0 : ndarray) :
  valid_vectorb self psi0 = true <-> valid_vector self psi0.
Proof.
  unfold valid_vectorb, valid_vector.
  now rewrite andb_true_iff, !Nat.eqb_eq.
Qed.

Lemma valid_vectorb_false (self : CGModel) (psi0 : ndarray) :
  valid_vectorb self psi0 = false <-> ~ valid_vector self psi0.
Proof.
  rewrite <- valid_vectorb_spec. now destruct (valid_vectorb self psi0).
Qed.

Lemma evolve_run (self : CGModel) (psi0 : ndarray) (n_steps : Z) :
  evolve self psi0 n_steps =
  if valid_vectorb self psi0
  then (Z.to_nat n_steps,
        Ok (data psi0 :: orbit (T_infty self) (data psi0) (Z.to_nat n_steps)))
  else (0, Raise shape_error).
Proof.
  unfold evolve, valid_vectorb, dim, ndim, shape_at, np_array; cbn [shape data].
  destruct (length (shape psi0) =? 1); [| reflexivity].
  destruct (nth 0 (shape psi0) 0 =? nth 0 (shape (T_infty self)) 0);
    [| reflexivity].
  cbn [negb orb andb]. apply evolve_loop_run.
Qed.

Lemma evolve_pair_run (self : CGModel) (psi0 psi0' : ndarray) (n_steps : Z) :
  let n := Z.to_nat n_steps in
  let traj := data psi0 :: orbit (T_infty self) (data psi0) n in
  let traj' := data psi0' :: orbit (T_infty self) (data psi0') n in
  evolve_pair self psi0 psi0' n_steps =
  if valid_vectorb self psi0
  then if valid_vectorb self psi0'
       then (n + n, Ok (traj, traj', norm_rows_diff traj traj'))
       else (n, Raise shape_error)
  else (0, Raise shape_error).
Proof.
  intros n traj traj'. unfold evolve_pair. rewrite !evolve_run.
  destruct (valid_vectorb self psi0); [| reflexivity].
  destruct (valid_vectorb self psi0'); cbn [bind ret]; f_equal; lia.
Qed.

Lemma distances_length (T : ndarray) (u v : vector) (n : nat) :
  length (norm_rows_diff (u :: orbit T u n) (v :: orbit T v n)) = S n.
Proof.
  rewrite norm_rows_diff_length; simpl; now rewrite !orbit_length.
Qed.

(** The estimator on two vectors the model accepts: the window check,
    then the fit of the logarithms of the window. *)
Lemma estimate_lambda_CG_run (np : numpy) (self : CGModel)
    (psi0 psi0' : ndarray) (n_steps fit_start fit_end : Z) :
  valid_vector self psi0 -> valid_vector self psi0' ->
  exists traj traj' D,
    result (evolve_pair self psi0 psi0' n_steps) = Ok (traj, traj', D) /\
    Z.of_nat (length D) = (Z.max n_steps 0 + 1)%Z /\
    result (estimate_lambda_CG np self psi0 psi0' n_steps fit_start fit_end) =
    let lo := Z.max fit_start 0 in
    let hi := Z.min fit_end (Z.max n_steps 0) in
    if (hi <=? lo + 1)%Z
    then Raise window_error
    else fit_result np (py_slice (arange (length D)) lo hi)
                       (map (np_log np) (py_slice D lo hi)).
Proof.
  intros Hv Hv'. apply valid_vectorb_spec in Hv, Hv'.
  pose proof (evolve_pair_run self psi0 psi0' n_steps) as Hpair.
  cbv zeta in Hpair. rewrite Hv, Hv' in Hpair.
  eexists _, _, _. split; [rewrite Hpair; reflexivity |].
  assert (Hlen : Z.of_nat (length (norm_rows_diff
      (data psi0 :: orbit (T_infty self) (data psi0) (Z.to_nat n_steps))
      (data psi0' :: orbit (T_infty self) (data psi0') (Z.to_nat n_steps))))
      = (Z.max n_steps 0 + 1)%Z)
    by (rewrite distances_length; lia).
  split; [exact Hlen |].
  unfold estimate_lambda_CG. rewrite result_bind, Hpair. cbn [result snd].
  rewrite Hlen.
  replace (Z.max n_steps 0 + 1 - 1)%Z with (Z.max n_steps 0) by lia.
  cbv zeta.
  destruct (Z.min fit_end (Z.max n_steps 0) <=? Z.max fit_start 0 + 1)%Z;
    [reflexivity |].
  rewrite result_bind. unfold fit_result, linalg.
  destruct (np_polyfit np _ _) as [[slope intercept] |]; reflexivity.
Qed.

End Runs.

(** ** Construction *)

Section Construction.

Lemma np_array_id (a : ndarray) : np_array a = a.
Proof. now destruct a. Qed.

Lemma post_init_run (T : ndarray) :
  __post_init__ T =
  if (ndim T =? 2) && (shape_at T 0 =? shape_at T 1)
  then (0, Ok {| T_infty := T |})
  else (0, Raise (ValueError "T_infty must be a square 2D array"%string)).
Proof.
  unfold __post_init__. rewrite np_array_id.
  destruct (ndim T =? 2); [| reflexivity].
  now destruct (shape_at T 0 =? shape_at T 1).
Qed.

Lemma constructed_square (self : CGModel) :
  constructed self <->
  ndim (T_infty self) = 2 /\
  shape_at (T_infty self) 0 = shape_at (T_infty self) 1.
Proof.
  unfold constructed. split.
  - intros (T & HT). rewrite post_init_run in HT.
    destruct (ndim T =? 2) eqn:Hd; [| discriminate].
    destruct (shape_at T 0 =? shape_at T 1) eqn:Hs; [| discriminate].
    injection HT as <-. apply Nat.eqb_eq in Hd, Hs. now split.
  - intros (Hd & Hs). exists (T_infty self). rewrite post_init_run.
    apply Nat.eqb_eq in Hd, Hs. rewrite Hd, Hs. now destruct self.
Qed.

(** C2, as the program has it: a construction that succeeds stores the
    input unchanged, and that array has rank 2 and as many rows as
    columns; a construction that fails raises the shape error, and the
    input is not of rank 2 or not square.  The dimension may be 0 and
    the entries are not inspected. *)
Theorem construction_stores_square_copy (T : ndarray) :
  match result (__post_init__ T) with
  | Ok self =>
      T_infty self = T /\
      ndim (T_infty self) = 2 /\
      shape_at (T_infty self) 0 = dim self /\
      shape_at (T_infty self) 1 = dim self
  | Raise e =>
      e = ValueError "T_infty must be a square 2D array"%string /\
      (ndim T <> 2 \/ shape_at T 0 <> shape_at T 1)
  end.
Proof.
  rewrite post_init_run.
  destruct (ndim T =? 2) eqn:Hd;
    [destruct (shape_at T 0 =? shape_at T 1) eqn:Hs |]; simpl.
  - apply Nat.eqb_eq in Hd, Hs. unfold dim. simpl. auto.
  - apply Nat.eqb_neq in Hs. auto.
  - apply Nat.eqb_neq in Hd. auto.
Qed.

(** C2 fails as stated: the empty 0 x 0 array and a 1 x 1 array holding
    NaN are both accepted, giving a model of dimension 0 and a model
    with an entry that is not finite. *)
Lemma construction_accepts_empty_and_nan :
  result (__post_init__ empty_matrix) = Ok {| T_infty := empty_matrix |} /\
  dim {| T_infty := empty_matrix |} = 0 /\
  result (__post_init__ nan_matrix) = Ok {| T_infty := nan_matrix |} /\
  data nan_matrix = [nan] /\
  is_finite nan = false.
Proof. repeat split. Qed.

End Construction.

(** ** Evolution of one vector *)

Section Evolution.

(** C3: on a vector of the model's dimension and a step count
    [n_steps >= 0], [evolve] returns [n_steps + 1] rows; row 0 is the
    initial vector, each row [k + 1] with [k < n_steps] is [T_infty]
    applied to row [k], and for [n_steps = 0] the single row is the
    initial vector. *)
Theorem evolve_trajectory (self : CGModel) (psi0 : ndarray) (n_steps : Z) :
  constructed self -> valid_vector self psi0 -> (0 <= n_steps)%Z ->
  exists traj,
    result (evolve self psi0 n_steps) = Ok traj /\
    Z.of_nat (length traj) = (n_steps + 1)%Z /\
    nth_error traj 0 = Some (data psi0) /\
    (forall k, (Z.of_nat k < n_steps)%Z ->
       exists psi_k,
         nth_error traj k = Some psi_k /\
         nth_error traj (S k) = Some (matvec (T_infty self) psi_k)) /\
    (n_steps = 0%Z -> traj = [data psi0]).
Proof.
  intros _ Hv Hn. apply valid_vectorb_spec in Hv.
  rewrite evolve_run, Hv. eexists. split; [reflexivity |].
  split; [simpl; rewrite orbit_length; lia |].
  split; [reflexivity |]. split.
  - intros k Hk. apply orbit_step. lia.
  - intros ->. reflexivity.
Qed.

Lemma evolve_trajectory_shear :
  exists traj,
    result (evolve shear_model shear_vector 2) = Ok traj /\
    Z.of_nat (length traj) = (2 + 1)%Z /\
    nth_error traj 0 = Some (data shear_vector) /\
    (forall k, (Z.of_nat k < 2)%Z ->
       exists psi_k,
         nth_error traj k = Some psi_k /\
         nth_error traj (S k) = Some (matvec (T_infty shear_model) psi_k)) /\
    (2%Z = 0%Z -> traj = [data shear_vector]).
Proof.
  apply (evolve_trajectory shear_model shear_vector 2).
  - exists (T_infty shear_model). reflexivity.
  - split; reflexivity.
  - lia.
Defined.

(** C10: a negative [n_steps] is not rejected. On a vector of the
    model's dimension the run is the run for [n_steps = 0]: no product
    is computed and the single row returned is the initial vector. *)
Theorem evolve_negative_steps (self : CGModel) (psi0 : ndarray) (n_steps : Z) :
  constructed self -> valid_vector self psi0 -> (n_steps < 0)%Z ->
  evolve self psi0 n_steps = evolve self psi0 0 /\
  result (evolve self psi0 n_steps) = Ok [data psi0] /\
  work (evolve self psi0 n_steps) = 0.
Proof.
  intros _ Hv Hn. apply valid_vectorb_spec in Hv.
  rewrite !evolve_run, Hv.
  replace (Z.to_nat n_steps) with 0 by lia.
  repeat split.
Qed.

Lemma evolve_negative_steps_shear :
  evolve shear_model shear_vector (-3) = evolve shear_model shear_vector 0 /\
  result (evolve shear_model shear_vector (-3)) = Ok [data shear_vector] /\
  work (evolve shear_model shear_vector (-3)) = 0.
Proof.
  apply (evolve_negative_steps shear_model shear_vector (-3)).
  - exists (T_infty shear_model). reflexivity.
  - split; reflexivity.
  - lia.
Defined.

End Evolution.

(** ** Two vectors and their distance *)

Section Pairs.

(** C7, as the program has it: for a vector of the model's dimension
    and [n_steps >= 0], [evolve_pair] on the vector and itself returns the
    trajectory of the vector twice and [n_steps + 1] distances; the
    distance at index [k] is zero when every entry of row [k] of the
    trajectory is finite, and NaN otherwise.  So all distances are zero
    when every entry of the trajectory is finite. *)
Theorem evolve_pair_same_vector (self : CGModel) (psi0 : ndarray) (n_steps : Z) :
  constructed self -> valid_vector self psi0 -> (0 <= n_steps)%Z ->
  exists traj D_n,
    result (evolve self psi0 n_steps) = Ok traj /\
    result (evolve_pair self psi0 psi0 n_steps) = Ok (traj, traj, D_n) /\
    Z.of_nat (length D_n) = (n_steps + 1)%Z /\
    D_n = map (fun psi_k => if forallb is_finite psi_k then zero else nan) traj /\
    (all_finite traj -> Forall (fun d => d = zero) D_n).
Proof.
  intros _ Hv Hn. apply valid_vectorb_spec in Hv.
  pose proof (evolve_pair_run self psi0 psi0 n_steps) as Hpair.
  cbv zeta in Hpair. rewrite Hv in Hpair.
  eexists _, _.
  split; [rewrite evolve_run, Hv; reflexivity |].
  split; [rewrite Hpair; reflexivity |].
  split; [rewrite distances_length; lia |].
  split; [apply norm_rows_diff_diag_cases | apply norm_rows_diff_diag].
Qed.

Lemma evolve_pair_same_vector_shear :
  exists traj D_n,
    result (evolve shear_model shear_vector 2) = Ok traj /\
    result (evolve_pair shear_model shear_vector shear_vector 2)
      = Ok (traj, traj, D_n) /\
    Z.of_nat (length D_n) = (2 + 1)%Z /\
    D_n = map (fun psi_k => if forallb is_finite psi_k then zero else nan) traj /\
    (all_finite traj -> Forall (fun d => d = zero) D_n).
Proof.
  apply (evolve_pair_same_vector shear_model shear_vector 2).
  - exists (T_infty shear_model). reflexivity.
  - split; reflexivity.
  - lia.
Defined.

(** C7 fails as stated: with [T = [[2.0 ** 600]]] and the finite vector
    [[2.0 ** 600]], one step overflows to infinity in both
    trajectories, and the distance at index 1 is NaN, not zero. *)
Lemma evolve_pair_same_vector_overflow :
  constructed huge_model /\
  valid_vector huge_model huge_vector /\
  Forall (fun x => is_finite x = true) (data huge_vector) /\
  result (evolve_pair huge_model huge_vector huge_vector 1) =
    Ok ([[of_pow2 600]; [inf]], [[of_pow2 600]; [inf]], [zero; nan]) /\
  nan <> zero.
Proof.
  split; [exists (T_infty huge_model); reflexivity |].
  split; [split; reflexivity |].
  split; [repeat constructor |].
  split; [vm_compute; reflexivity | discriminate].
Qed.

End Pairs.

(** ** Shape errors *)

Section ShapeErrors.

Lemma fit_result_not_ValueError (np : numpy) (n_fit : list Z)
    (logD_fit : list f64) (msg : string) :
  fit_result np n_fit logD_fit <> Raise (ValueError msg).
Proof.
  unfold fit_result.
  destruct (np_polyfit np n_fit logD_fit) as [[slope intercept] |];
    discriminate.
Qed.

Lemma evolve_pair_shape_error (self : CGModel) (psi0 psi0' : ndarray)
    (n_steps : Z) :
  (result (evolve_pair self psi0 psi0' n_steps) = Raise shape_error <->
   ~ valid_vector self psi0 \/ ~ valid_vector self psi0') /\
  (~ valid_vector self psi0 ->
   work (evolve_pair self psi0 psi0' n_steps) = 0) /\
  (valid_vector self psi0 -> ~ valid_vector self psi0' ->
   work (evolve_pair self psi0 psi0' n_steps) = Z.to_nat n_steps).
Proof.
  pose proof (evolve_pair_run self psi0 psi0' n_steps) as Hpair.
  cbv zeta in Hpair. rewrite Hpair.
  rewrite <- !valid_vectorb_false, <- !valid_vectorb_spec.
  destruct (valid_vectorb self psi0), (valid_vectorb self psi0'); simpl;
    repeat split; intros; try reflexivity; try discriminate; auto;
    intuition discriminate.
Qed.

Lemma estimate_shape_error (np : numpy) (self : CGModel)
    (psi0 psi0' : ndarray) (n_steps fit_start fit_end : Z) :
  ~ valid_vector self psi0 \/ ~ valid_vector self psi0' ->
  estimate_lambda_CG np self psi0 psi0' n_steps fit_start fit_end =
  (work (evolve_pair self psi0 psi0' n_steps), Raise shape_error).
Proof.
  intros H. apply (evolve_pair_shape_error self psi0 psi0' n_steps) in H.
  unfold estimate_lambda_CG.
  rewrite (run_eq (evolve_pair self psi0 psi0' n_steps)), H.
  reflexivity.
Qed.

(** C4, as the program has it.  Construction raises the shape error
    exactly when the input is not of rank 2 or not square, and [evolve],
    [evolve_pair] and [estimate_lambda_CG] raise theirs exactly when an
    initial vector is not one-dimensional of the model's length.
    Construction and [evolve] raise before any matrix-vector product;
    [evolve_pair] and [estimate_lambda_CG] do so when the first vector
    is the offending one, and when only the second is, the trajectory of
    the first, [n_steps] products, has been computed by then. *)
Theorem shape_errors (np : numpy) (T : ndarray) (self : CGModel)
    (psi0 psi0' : ndarray) (n_steps fit_start fit_end : Z) :
  constructed self ->
  let pair := evolve_pair self psi0 psi0' n_steps in
  let estimate :=
    estimate_lambda_CG np self psi0 psi0' n_steps fit_start fit_end in
  (result (__post_init__ T)
     = Raise (ValueError "T_infty must be a square 2D array"%string) <->
   ndim T <> 2 \/ shape_at T 0 <> shape_at T 1) /\
  work (__post_init__ T) = 0 /\
  (result (evolve self psi0 n_steps) = Raise shape_error <->
   ~ valid_vector self psi0) /\
  (~ valid_vector self psi0 -> work (evolve self psi0 n_steps) = 0) /\
  (result pair = Raise shape_error <->
   ~ valid_vector self psi0 \/ ~ valid_vector self psi0') /\
  (result estimate = Raise shape_error <->
   ~ valid_vector self psi0 \/ ~ valid_vector self psi0') /\
  (~ valid_vector self psi0 -> work pair = 0 /\ work estimate = 0) /\
  (valid_vector self psi0 -> ~ valid_vector self psi0' ->
   work pair = Z.to_nat n_steps /\ work estimate = Z.to_nat n_steps).
Proof.
  intros _ pair estimate.
  destruct (evolve_pair_shape_error self psi0 psi0' n_steps)
    as (Hpair & Hwork0 & Hwork1).
  assert (Hest : ~ valid_vector self psi0 \/ ~ valid_vector self psi0' ->
                 estimate = (work pair, Raise shape_error))
    by apply estimate_shape_error.
  split.
  { rewrite post_init_run.
    destruct (ndim T =? 2) eqn:Hd;
      [destruct (shape_at T 0 =? shape_at T 1) eqn:Hs |]; simpl.
    - apply Nat.eqb_eq in Hd, Hs. intuition discriminate.
    - apply Nat.eqb_neq in Hs. intuition.
    - apply Nat.eqb_neq in Hd. intuition. }
  split; [rewrite post_init_run; now destruct (_ && _) |].
  split.
  { rewrite evolve_run, <- valid_vectorb_false.
    destruct (valid_vectorb self psi0); simpl; intuition discriminate. }
  split.
  { intros H. apply valid_vectorb_false in H. now rewrite evolve_run, H. }
  split; [exact Hpair |].
  split.
  { split.
    - intros H.
      destruct (valid_vectorb self psi0) eqn:Hv;
        [| left; now apply valid_vectorb_false].
      destruct (valid_vectorb self psi0') eqn:Hv';
        [| right; now apply valid_vectorb_false].
      exfalso. apply valid_vectorb_spec in Hv, Hv'.
      destruct (estimate_lambda_CG_run np self psi0 psi0' n_steps
                  fit_start fit_end Hv Hv') as (t & t' & D & _ & _ & Hrun).
      fold estimate in Hrun. rewrite H in Hrun. cbv zeta in Hrun.
      destruct (_ <=? _)%Z in Hrun; [discriminate |].
      symmetry in Hrun. now apply fit_result_not_ValueError in Hrun.
    - intros H. now rewrite (Hest H). }
  split.
  - intros H. split; [now apply Hwork0 |].
    rewrite (Hest (or_introl H)). now apply Hwork0.
  - intros H H'. split; [now apply Hwork1 |].
    rewrite (Hest (or_intror H')). now apply Hwork1.
Qed.

Lemma shape_errors_shear :
  let pair := evolve_pair shear_model shear_vector unit_vector 5 in
  let estimate :=
    estimate_lambda_CG sample_numpy shear_model shear_vector unit_vector 5 0 4 in
  (result (__post_init__ unit_vector)
     = Raise (ValueError "T_infty must be a square 2D array"%string) <->
   ndim unit_vector <> 2 \/ shape_at unit_vector 0 <> shape_at unit_vector 1) /\
  work (__post_init__ unit_vector) = 0 /\
  (result (evolve shear_model shear_vector 5) = Raise shape_error <->
   ~ valid_vector shear_model shear_vector) /\
  (~ valid_vector shear_model shear_vector ->
   work (evolve shear_model shear_vector 5) = 0) /\
  (result pair = Raise shape_error <->
   ~ valid_vector shear_model shear_vector \/
   ~ valid_vector shear_model unit_vector) /\
  (result estimate = Raise shape_error <->
   ~ valid_vector shear_model shear_vector \/
   ~ valid_vector shear_model unit_vector) /\
  (~ valid_vector shear_model shear_vector ->
   work pair = 0 /\ work estimate = 0) /\
  (valid_vector shear_model shear_vector ->
   ~ valid_vector shear_model unit_vector ->
   work pair = Z.to_nat 5 /\ work estimate = Z.to_nat 5).
Proof.
  apply (shape_errors sample_numpy unit_vector shear_model shear_vector
           unit_vector 5 0 4).
  exists (T_infty shear_model). reflexivity.
Defined.

(** C4 fails as stated for [evolve_pair]: called with a vector the
    model accepts and then one it does not, it raises the shape error
    only after the three products of the first trajectory. *)
Lemma evolve_pair_late_shape_error :
  constructed unit_model /\
  valid_vector unit_model unit_vector /\
  ~ valid_vector unit_model empty_vector /\
  evolve_pair unit_model unit_vector empty_vector 3 = (3, Raise shape_error).
Proof.
  split; [exists (T_infty unit_model); reflexivity |].
  split; [split; reflexivity |].
  split; [| reflexivity].
  intros (_ & H). discriminate H.
Qed.

End ShapeErrors.

(** ** The fit window and the exponent estimate *)

Section Estimation.

Variable np : numpy.
Variable self : CGModel.
Variables psi0 psi0' : ndarray.
Variables n_steps fit_start fit_end : Z.

Hypothesis model_constructed : constructed self.
Hypothesis psi0_valid : valid_vector self psi0.
Hypothesis psi0'_valid : valid_vector self psi0'.

Let lo : Z := Z.max fit_start 0.
Let hi : Z := Z.min fit_end n_steps.

(** When the clamped window passes the size check, the estimator ends
    as the fit over the slices [lo:hi] does. *)
Lemma estimate_lambda_CG_fit :
  (lo + 1 < hi)%Z ->
  exists traj traj' D_n,
    result (evolve_pair self psi0 psi0' n_steps) = Ok (traj, traj', D_n) /\
    Z.of_nat (length D_n) = (n_steps + 1)%Z /\
    result (estimate_lambda_CG np self psi0 psi0' n_steps fit_start fit_end) =
    fit_result np (py_slice (arange (length D_n)) lo hi)
                  (map (np_log np) (py_slice D_n lo hi)).
Proof using All.
  intros Hwin.
  destruct (estimate_lambda_CG_run np self psi0 psi0' n_steps
              fit_start fit_end psi0_valid psi0'_valid)
    as (traj & traj' & D_n & Hpair & Hlen & Hrun).
  exists traj, traj', D_n. subst lo hi.
  split; [exact Hpair |]. split; [lia |].
  rewrite Hrun. cbv zeta.
  replace (Z.max n_steps 0) with n_steps by lia.
  destruct (Z.leb_spec (Z.min fit_end n_steps) (Z.max fit_start 0 + 1));
    [lia | reflexivity].
Qed.

(** C5: when the estimator reaches the fit, the lower bound is
    [max fit_start 0 >= 0], the upper bound is
    [min fit_end n_steps <= n_steps], and the indices fitted and returned
    are exactly the integers [i] with [lo <= i < hi], paired with the
    logarithms of the distances at those indices; the index [hi] is not
    among them. *)
Theorem fit_window_half_open :
  (lo + 1 < hi)%Z ->
  exists traj traj' D_n,
    result (evolve_pair self psi0 psi0' n_steps) = Ok (traj, traj', D_n) /\
    Z.of_nat (length D_n) = (n_steps + 1)%Z /\
    result (estimate_lambda_CG np self psi0 psi0' n_steps fit_start fit_end) =
      fit_result np (Zrange lo hi)
        (map (fun i => np_log np (nth (Z.to_nat i) D_n zero)) (Zrange lo hi)) /\
    (forall i, In i (Zrange lo hi) <-> (lo <= i < hi)%Z) /\
    (0 <= lo)%Z /\ (hi <= n_steps)%Z /\ ~ In hi (Zrange lo hi).
Proof using All.
  intros Hwin.
  destruct (estimate_lambda_CG_fit Hwin)
    as (traj & traj' & D_n & Hpair & Hlen & Hrun).
  exists traj, traj', D_n.
  assert (Hlo : (0 <= lo)%Z) by (subst lo; lia).
  assert (Hhi : (hi <= n_steps)%Z) by (subst hi; lia).
  split; [exact Hpair |]. split; [exact Hlen |]. split.
  - rewrite Hrun, py_slice_arange by lia.
    rewrite py_slice_map_nth with (d := zero) by lia.
    now rewrite map_map.
  - split; [intros i; now apply In_Zrange |].
    split; [exact Hlo |]. split; [exact Hhi |].
    rewrite In_Zrange by exact Hlo. lia.
Qed.

(** C1, as the program has it: when the clamped window passes the size
    check, the estimator inspects no distance.  Every distance of the
    window, whatever its sign, is kept in place and unchanged, its
    logarithm is handed to the fit, the call ends as the fit ends, and no
    [ValueError] is raised. *)
Theorem estimate_fits_every_window_distance :
  (lo + 1 < hi)%Z ->
  exists traj traj' D_n,
    result (evolve_pair self psi0 psi0' n_steps) = Ok (traj, traj', D_n) /\
    Z.of_nat (length (py_slice D_n lo hi)) = (hi - lo)%Z /\
    (forall k, (Z.of_nat k < hi - lo)%Z ->
       nth k (py_slice D_n lo hi) zero = nth (Z.to_nat lo + k) D_n zero) /\
    result (estimate_lambda_CG np self psi0 psi0' n_steps fit_start fit_end) =
      fit_result np (py_slice (arange (length D_n)) lo hi)
                    (map (np_log np) (py_slice D_n lo hi)) /\
    (forall msg,
       result (estimate_lambda_CG np self psi0 psi0' n_steps fit_start fit_end)
       <> Raise (ValueError msg)).
Proof using All.
  intros Hwin.
  destruct (estimate_lambda_CG_fit Hwin)
    as (traj & traj' & D_n & Hpair & Hlen & Hrun).
  exists traj, traj', D_n.
  assert (Hlo : (0 <= lo <= hi)%Z) by (subst lo hi; lia).
  assert (Hhi : (hi <= Z.of_nat (length D_n))%Z) by (subst hi; lia).
  split; [exact Hpair |].
  split; [now apply py_slice_length |].
  split; [intros k Hk; now apply py_slice_nth |].
  split; [exact Hrun |].
  intros msg. rewrite Hrun. apply fit_result_not_ValueError.
Qed.

(** C6: on two vectors the model accepts, the estimator raises the
    window error exactly when the clamped bounds satisfy
    [fit_end <= fit_start + 1]; with [fit_start = 10] and [fit_end = 11]
    it does so whatever [n_steps] is. *)
Theorem fit_window_too_small :
  (result (estimate_lambda_CG np self psi0 psi0' n_steps fit_start fit_end)
     = Raise window_error <->
   (hi <= lo + 1)%Z) /\
  result (estimate_lambda_CG np self psi0 psi0' n_steps 10 11)
    = Raise window_error.
Proof using All.
  split.
  - destruct (estimate_lambda_CG_run np self psi0 psi0' n_steps
                fit_start fit_end psi0_valid psi0'_valid)
      as (traj & traj' & D_n & _ & _ & Hrun).
    rewrite Hrun. cbv zeta. subst lo hi.
    destruct (Z.leb_spec (Z.min fit_end (Z.max n_steps 0))
                         (Z.max fit_start 0 + 1)) as [Hle | Hgt].
    + split; [lia | reflexivity].
    + split; [| lia]. intros H.
      now apply fit_result_not_ValueError in H.
  - destruct (estimate_lambda_CG_run np self psi0 psi0' n_steps
                10 11 psi0_valid psi0'_valid)
      as (traj & traj' & D_n & _ & _ & Hrun).
    rewrite Hrun. cbv zeta.
    destruct (Z.leb_spec (Z.min 11 (Z.max n_steps 0)) (Z.max 10 0 + 1));
      [reflexivity | lia].
Qed.

End Estimation.

Section EstimationExamples.

(** [estimate_lambda_CG(psi0, psi0', n_steps=6, fit_start=-2, fit_end=9)]:
    the bounds are clamped to 0 and 6, and the indices fitted are 0..5. *)
Lemma fit_window_half_open_shear :
  exists traj traj' D_n,
    result (evolve_pair shear_model shear_vector shear_vector' 6)
      = Ok (traj, traj', D_n) /\
    Z.of_nat (length D_n) = (6 + 1)%Z /\
    result (estimate_lambda_CG sample_numpy shear_model shear_vector
              shear_vector' 6 (-2) 9) =
      fit_result sample_numpy (Zrange (Z.max (-2) 0) (Z.min 9 6))
        (map (fun i => np_log sample_numpy (nth (Z.to_nat i) D_n zero))
             (Zrange (Z.max (-2) 0) (Z.min 9 6))) /\
    (forall i, In i (Zrange (Z.max (-2) 0) (Z.min 9 6)) <->
               (Z.max (-2) 0 <= i < Z.min 9 6)%Z) /\
    (0 <= Z.max (-2) 0)%Z /\ (Z.min 9 6 <= 6)%Z /\
    ~ In (Z.min 9 6) (Zrange (Z.max (-2) 0) (Z.min 9 6)).
Proof.
  apply (fit_window_half_open sample_numpy shear_model shear_vector
           shear_vector' 6 (-2) 9).
  - exists (T_infty shear_model). reflexivity.
  - split; reflexivity.
  - split; reflexivity.
  - reflexivity.
Defined.

Lemma estimate_fits_every_window_distance_shear :
  exists traj traj' D_n,
    result (evolve_pair shear_model shear_vector shear_vector 6)
      = Ok (traj, traj', D_n) /\
    Z.of_nat (length (py_slice D_n (Z.max 1 0) (Z.min 5 6)))
      = (Z.min 5 6 - Z.max 1 0)%Z /\
    (forall k, (Z.of_nat k < Z.min 5 6 - Z.max 1 0)%Z ->
       nth k (py_slice D_n (Z.max 1 0) (Z.min 5 6)) zero
       = nth (Z.to_nat (Z.max 1 0) + k) D_n zero) /\
    result (estimate_lambda_CG sample_numpy shear_model shear_vector
              shear_vector 6 1 5) =
      fit_result sample_numpy
        (py_slice (arange (length D_n)) (Z.max 1 0) (Z.min 5 6))
        (map (np_log sample_numpy)
             (py_slice D_n (Z.max 1 0) (Z.min 5 6))) /\
    (forall msg,
       result (estimate_lambda_CG sample_numpy shear_model shear_vector
                 shear_vector 6 1 5)
       <> Raise (ValueError msg)).
Proof.
  apply (estimate_fits_every_window_distance sample_numpy shear_model
           shear_vector shear_vector 6 1 5).
  - exists (T_infty shear_model). reflexivity.
  - split; reflexivity.
  - split; reflexivity.
  - reflexivity.
Defined.

(** With the defaults [n_steps=200, fit_start=10, fit_end=150]. *)
Lemma fit_window_too_small_shear :
  (result (estimate_lambda_CG sample_numpy shear_model shear_vector
             shear_vector' default_n_steps default_fit_start default_fit_end)
     = Raise window_error <->
   (Z.min default_fit_end default_n_steps <= Z.max default_fit_start 0 + 1)%Z) /\
  result (estimate_lambda_CG sample_numpy shear_model shear_vector
            shear_vector' default_n_steps 10 11) = Raise window_error.
Proof.
  apply (fit_window_too_small sample_numpy shear_model shear_vector
           shear_vector' default_n_steps default_fit_start default_fit_end).
  - exists (T_infty shear_model). reflexivity.
  - split; reflexivity.
  - split; reflexivity.
Defined.

(** C1 fails as stated: with [T = [[1.0]]] and twice the vector [[1.0]],
    every distance is zero, the window [0:3] passes the size check, and
    the estimator ends as the fit of the three values [log 0] ends. It
    raises no error of its own. *)
Lemma estimate_fits_zero_distances :
  constructed unit_model /\
  valid_vector unit_model unit_vector /\
  result (evolve_pair unit_model unit_vector unit_vector 3) =
    Ok ([[one]; [one]; [one]; [one]], [[one]; [one]; [one]; [one]],
        [zero; zero; zero; zero]) /\
  (forall np,
     result (estimate_lambda_CG np unit_model unit_vector unit_vector 3 0 3) =
     fit_result np [0; 1; 2]%Z [np_log np zero; np_log np zero; np_log np zero]) /\
  (forall np slope intercept,
     np_polyfit np [0; 1; 2]%Z [np_log np zero; np_log np zero; np_log np zero]
       = Some (slope, intercept) ->
     result (estimate_lambda_CG np unit_model unit_vector unit_vector 3 0 3) =
     Ok (slope, [0; 1; 2]%Z, [np_log np zero; np_log np zero; np_log np zero])).
Proof.
  assert (Hrun : forall np,
    result (estimate_lambda_CG np unit_model unit_vector unit_vector 3 0 3) =
    fit_result np [0; 1; 2]%Z [np_log np zero; np_log np zero; np_log np zero]).
  { intros np.
    destruct (estimate_lambda_CG_fit np unit_model unit_vector unit_vector
                3 0 3 (ex_intro _ (T_infty unit_model) eq_refl)
                (conj eq_refl eq_refl) (conj eq_refl eq_refl) eq_refl)
      as (traj & traj' & D_n & Hpair & _ & Hrun).
    vm_compute in Hpair. injection Hpair as <- <- <-.
    exact Hrun. }
  split; [exists (T_infty unit_model); reflexivity |].
  split; [split; reflexivity |].
  split; [reflexivity |].
  split; [exact Hrun |].
  intros np slope intercept H. rewrite Hrun. unfold fit_result.
  now rewrite H.
Qed.

End EstimationExamples.

(** ** Spectral diagnostics *)

Section Diagnostics.

(** C8: [power_norm(1)] is [operator_norm()]: the first power of the
    stored matrix is the stored matrix, and both take the largest of its
    singular values (or raise alike). *)
Theorem power_norm_one (np : numpy) (self : CGModel) :
  power_norm np self 1 = operator_norm np self.
Proof. reflexivity. Qed.

Lemma power_norm_range_error (np : numpy) (self : CGModel) (n : Z) :
  (n < 1)%Z -> power_norm np self n = raise (ValueError "n must be >= 1"%string).
Proof.
  intros Hn. unfold power_norm.
  now destruct (Z.ltb_spec n 1); [| lia].
Qed.

End Diagnostics.

(** ** Signs and order of binary64 values *)

Module Float64Signs.

(** Rounding only copies the sign it is given. *)
Lemma round_aux_opp (s : bool) (m e : Z) (l : location) :
  binary_round_aux prec emax (negb s) m e l
  = SFopp (binary_round_aux prec emax s m e l).
Proof.
  unfold binary_round_aux.
  destruct (shr_fexp prec emax m e l) as [mrs' e'].
  destruct (shr_fexp prec emax _ e' loc_Exact) as [mrs'' e''].
  destruct (shr_m mrs''); [reflexivity | | reflexivity].
  now destruct (e'' <=? emax - prec)%Z.
Qed.

Lemma round_aux_not_negative (m e : Z) (l : location) :
  not_negative (binary_round_aux prec emax false m e l) = true.
Proof.
  unfold binary_round_aux.
  destruct (shr_fexp prec emax m e l) as [mrs' e'].
  destruct (shr_fexp prec emax _ e' loc_Exact) as [mrs'' e''].
  destruct (shr_m mrs''); [reflexivity | | reflexivity].
  now destruct (e'' <=? emax - prec)%Z.
Qed.

Lemma round_opp (s : bool) (m : positive) (e : Z) :
  binary_round prec emax (negb s) m e = SFopp (binary_round prec emax s m e).
Proof.
  unfold binary_round. destruct (shl_align m e _) as [mz ez].
  apply round_aux_opp.
Qed.

Lemma round_not_negative (m : positive) (e : Z) :
  not_negative (binary_round prec emax false m e) = true.
Proof.
  unfold binary_round. destruct (shl_align m e _) as [mz ez].
  apply round_aux_not_negative.
Qed.

(** The square of a value and of its opposite. *)
Lemma square_opp (x : f64) : mul (SFopp x) (SFopp x) = mul x x.
Proof. destruct x as [[] | [] | | [] m e]; reflexivity. Qed.

Lemma square_not_negative (x : f64) : not_negative (mul x x) = true.
Proof.
  destruct x as [[] | [] | | [] m e]; try reflexivity;
    apply round_aux_not_negative.
Qed.

(** [x - y] and [y - x] have the same square. *)
Lemma square_sub_swap (x y : f64) :
  mul (sub x y) (sub x y) = mul (sub y x) (sub y x).
Proof.
  destruct x as [[] | [] | | sx mx ex], y as [[] | [] | | sy my ey];
    try reflexivity;
    try (first [ apply (square_opp (S754_finite _ _ _))
               | symmetry; apply (square_opp (S754_finite _ _ _)) ]).
  unfold sub, SFsub. rewrite (Z.min_comm ey ex).
  set (ez := Z.min ex ey).
  set (a := cond_Zopp sx (Z.pos (fst (shl_align mx ex ez)))).
  set (b := cond_Zopp sy (Z.pos (fst (shl_align my ey ez)))).
  replace (b - a)%Z with (- (a - b))%Z by lia.
  destruct (a - b)%Z as [| p | p]; cbn [Z.opp binary_normalize].
  - reflexivity.
  - rewrite (round_opp false). symmetry. apply square_opp.
  - rewrite (round_opp false). apply square_opp.
Qed.

Lemma add_not_negative (x y : f64) :
  not_negative x = true -> not_negative y = true ->
  not_negative (add x y) = true.
Proof.
  destruct x as [[] | [] | | [] mx ex], y as [[] | [] | | [] my ey];
    try discriminate; try reflexivity.
  intros _ _. unfold add, SFadd. cbn [cond_Zopp].
  cbn [Z.add binary_normalize]. apply round_not_negative.
Qed.

Lemma sqrt_not_negative (x : f64) :
  not_negative x = true -> not_negative (sqrt x) = true.
Proof.
  destruct x as [[] | [] | | [] m e]; try discriminate; try reflexivity.
  intros _. unfold sqrt, SFsqrt.
  destruct (SFsqrt_core_binary prec emax (Z.pos m) e) as [[mz ez] lz].
  apply round_aux_not_negative.
Qed.

End Float64Signs.

Module Float64Order.

Ltac order_step :=
  match goal with
  | H : true = false |- _ => discriminate H
  | H : false = true |- _ => discriminate H
  | |- true = true => reflexivity
  | H : context [(?a ?= ?b)%Z] |- _ =>
      destruct (Z.compare_spec a b); try lia; subst; cbn in *
  | |- context [(?a ?= ?b)%Z] =>
      destruct (Z.compare_spec a b); try lia; subst; cbn in *
  | H : context [(?a ?= ?b)%positive] |- _ =>
      destruct (Pos.compare_spec a b); try lia; subst; cbn in *
  | |- context [(?a ?= ?b)%positive] =>
      destruct (Pos.compare_spec a b); try lia; subst; cbn in *
  end.

(** [<=] on binary64 is total and transitive away from NaN. *)
Lemma leb_total (a b : f64) :
  is_nan a = false -> is_nan b = false -> leb b a = false -> leb a b = true.
Proof.
  unfold leb, SFleb, SFcompare.
  destruct a as [[] | [] | | [] ma ea], b as [[] | [] | | [] mb eb];
    try discriminate; try reflexivity; intros _ _;
    change (Pos.compare_cont Eq) with Pos.compare; intros H;
    repeat order_step.
Qed.

Lemma leb_trans (a b c : f64) :
  leb a b = true -> leb b c = true -> leb a c = true.
Proof.
  unfold leb, SFleb, SFcompare.
  destruct a as [[] | [] | | [] ma ea], b as [[] | [] | | [] mb eb],
           c as [[] | [] | | [] mc ec];
    try discriminate; try reflexivity;
    change (Pos.compare_cont Eq) with Pos.compare; intros H1 H2;
    repeat order_step.
Qed.

Lemma leb_refl (a : f64) : is_nan a = false -> leb a a = true.
Proof.
  unfold leb, SFleb, SFcompare.
  destruct a as [[] | [] | | [] ma ea]; try discriminate; try reflexivity;
    intros _; change (Pos.compare_cont Eq) with Pos.compare;
    now rewrite Z.compare_refl, Pos.compare_refl.
Qed.

Lemma leb_not_nan (a b : f64) :
  leb a b = true -> is_nan a = false /\ is_nan b = false.
Proof.
  destruct a as [[] | [] | | [] ma ea], b as [[] | [] | | [] mb eb];
    try discriminate; now split.
Qed.

End Float64Order.

(** ** More on trajectories *)

Section Trajectories.

Lemma matvec_length (T : ndarray) (v : vector) :
  length (matvec T v) = shape_at T 0.
Proof. unfold matvec. now rewrite length_map, length_seq. Qed.

Lemma orbit_rows (T : ndarray) (n : nat) :
  forall psi, Forall (fun r => length r = shape_at T 0) (orbit T psi n).
Proof.
  induction n as [| n IH]; intros psi; simpl; constructor.
  - apply matvec_length.
  - apply IH.
Qed.

Lemma vector_data_length (psi0 : ndarray) :
  ndim psi0 = 1 -> well_formed psi0 -> length (data psi0) = shape_at psi0 0.
Proof.
  unfold ndim, well_formed, shape_at. intros Hd Hwf.
  destruct (shape psi0) as [| k [| k' rest]]; try discriminate.
  rewrite Hwf. simpl. lia.
Qed.

Lemma orbit_app (T : ndarray) (m n : nat) :
  forall psi,
  orbit T psi (m + n) =
  orbit T psi m ++ orbit T (nth m (psi :: orbit T psi m) psi) n.
Proof.
  induction m as [| m IH]; intros psi; [reflexivity |].
  cbn [Nat.add orbit]. cbv zeta. rewrite IH. cbn [app].
  do 3 f_equal.
  transitivity (nth m (matvec T psi :: orbit T (matvec T psi) m) psi);
    [| reflexivity].
  apply nth_indep. cbn [length]. rewrite orbit_length. lia.
Qed.

Lemma skipn_last {A : Type} (m : nat) :
  forall (l : list A) (d : A), length l = S m -> skipn m l = [nth m l d].
Proof.
  induction m as [| m IH]; intros [| x l] d Hl; try discriminate.
  - destruct l; [reflexivity | discriminate].
  - cbn [skipn nth]. apply IH. now injection Hl.
Qed.

(** X1: the array [evolve] returns has the shape its docstring gives,
    [(n_steps + 1, dim)], a negative [n_steps] counting as 0: there are
    [max(n_steps, 0) + 1] rows and every row has [dim] entries. *)
Theorem evolve_shape (self : CGModel) (psi0 : ndarray) (n_steps : Z) :
  constructed self -> valid_vector self psi0 -> well_formed psi0 ->
  exists traj,
    result (evolve self psi0 n_steps) = Ok traj /\
    Z.of_nat (length traj) = (Z.max n_steps 0 + 1)%Z /\
    Forall (fun psi => length psi = dim self) traj.
Proof.
  intros _ Hv Hwf. pose proof Hv as (Hd & Hs).
  apply valid_vectorb_spec in Hv. rewrite evolve_run, Hv.
  eexists. split; [reflexivity |]. split.
  - cbn [length]. rewrite orbit_length. lia.
  - constructor; [| apply orbit_rows].
    now rewrite vector_data_length.
Qed.

Lemma evolve_shape_shear :
  exists traj,
    result (evolve shear_model shear_vector 3) = Ok traj /\
    Z.of_nat (length traj) = (Z.max 3 0 + 1)%Z /\
    Forall (fun psi => length psi = dim shear_model) traj.
Proof.
  apply (evolve_shape shear_model shear_vector 3).
  - exists (T_infty shear_model). reflexivity.
  - split; reflexivity.
  - reflexivity.
Defined.

(** X2: a trajectory can be resumed.  With [traj] the rows [evolve]
    returns over [m + n] steps, [evolve] over [m] steps returns the first
    [m + 1] rows of [traj], and [evolve] started from row [m] over [n]
    steps returns the rows of [traj] from [m] on. *)
Theorem evolve_resume (self : CGModel) (psi0 : ndarray) (m n : nat) :
  constructed self -> valid_vector self psi0 -> well_formed psi0 ->
  exists traj psi_m,
    result (evolve self psi0 (Z.of_nat (m + n))) = Ok traj /\
    nth_error traj m = Some psi_m /\
    result (evolve self psi0 (Z.of_nat m)) = Ok (firstn (S m) traj) /\
    result (evolve self (of_vector psi_m) (Z.of_nat n)) = Ok (skipn m traj).
Proof.
  intros _ Hv Hwf. pose proof Hv as (Hd & Hs).
  apply valid_vectorb_spec in Hv.
  exists (data psi0 :: orbit (T_infty self) (data psi0) (m + n)).
  exists (nth m (data psi0 :: orbit (T_infty self) (data psi0) m) (data psi0)).
  split; [now rewrite evolve_run, Hv, Nat2Z.id |].
  set (T := T_infty self) in *. set (v := data psi0) in *.
  set (psi_m := nth m (v :: orbit T v m) v).
  assert (Hlen : length (v :: orbit T v m) = S m)
    by (cbn [length]; now rewrite orbit_length).
  assert (Hsplit : v :: orbit T v (m + n)
                   = (v :: orbit T v m) ++ orbit T psi_m n)
    by (rewrite orbit_app; reflexivity).
  assert (Hvm : valid_vectorb self (of_vector psi_m) = true).
  { apply valid_vectorb_spec. split; [reflexivity |].
    unfold shape_at, of_vector, dim. cbn [shape nth]. subst psi_m.
    destruct m as [| m'].
    - cbn [nth]. subst v. now rewrite vector_data_length.
    - cbn [nth].
      assert (Hrow := orbit_rows T (S m') v).
      rewrite Forall_forall in Hrow. apply Hrow, nth_In.
      rewrite orbit_length. lia. }
  fold T v psi_m. split; [| split].
  - rewrite Hsplit, nth_error_app1 by (rewrite Hlen; lia).
    apply nth_error_nth'. rewrite Hlen. lia.
  - rewrite evolve_run, Hv, Nat2Z.id. cbn [result snd]. f_equal.
    rewrite Hsplit, firstn_app, Hlen, Nat.sub_diag.
    rewrite firstn_all2 by (rewrite Hlen; lia).
    cbn [firstn]. now rewrite app_nil_r.
  - rewrite evolve_run, Hvm, Nat2Z.id. cbn [result snd of_vector data].
    f_equal. rewrite Hsplit, skipn_app, Hlen.
    replace (m - S m) with 0 by lia. cbn [skipn].
    now rewrite (skipn_last m _ v Hlen).
Qed.

Lemma evolve_resume_shear :
  exists traj psi_m,
    result (evolve shear_model shear_vector (Z.of_nat (1 + 2))) = Ok traj /\
    nth_error traj 1 = Some psi_m /\
    result (evolve shear_model shear_vector (Z.of_nat 1))
      = Ok (firstn (S 1) traj) /\
    result (evolve shear_model (of_vector psi_m) (Z.of_nat 2))
      = Ok (skipn 1 traj).
Proof.
  apply (evolve_resume shear_model shear_vector 1 2).
  - exists (T_infty shear_model). reflexivity.
  - split; reflexivity.
  - reflexivity.
Defined.

End Trajectories.

(** ** More on distances *)

Section Distances.

Lemma norm_diff_swap (u : vector) :
  forall v, norm (zip_with sub u v) = norm (zip_with sub v u).
Proof.
  intros v. unfold norm. do 2 f_equal.
  revert v. unfold zip_with.
  induction u as [| x u IH]; intros [| y v]; cbn [combine map fst snd];
    try reflexivity.
  now rewrite IH, Float64Signs.square_sub_swap.
Qed.

Lemma norm_rows_diff_swap (x : list vector) :
  forall y, norm_rows_diff x y = norm_rows_diff y x.
Proof.
  unfold norm_rows_diff, zip_with at 1 3.
  induction x as [| u x IH]; intros [| v y]; cbn [combine map fst snd];
    try reflexivity.
  now rewrite IH, norm_diff_swap.
Qed.

Lemma sum_squares_not_negative (v : list f64) :
  forall acc, not_negative acc = true ->
  not_negative (fold_left add (map (fun x => mul x x) v) acc) = true.
Proof.
  induction v as [| x v IH]; intros acc Hacc; cbn [map fold_left];
    [exact Hacc |].
  apply IH, Float64Signs.add_not_negative;
    [exact Hacc | apply Float64Signs.square_not_negative].
Qed.

Lemma norm_not_negative (v : vector) : not_negative (norm v) = true.
Proof.
  unfold norm.
  now apply Float64Signs.sqrt_not_negative, sum_squares_not_negative.
Qed.

(** X3: the distance does not depend on the order of the two vectors.
    [evolve_pair] on the vectors exchanged returns the two trajectories
    exchanged and the same distances, entry for entry, and fails when
    [evolve_pair] on the vectors in the first order fails, with the same
    error. *)
Theorem evolve_pair_swap (self : CGModel) (psi0 psi0' : ndarray) (n_steps : Z) :
  result (evolve_pair self psi0' psi0 n_steps) =
  match result (evolve_pair self psi0 psi0' n_steps) with
  | Ok (psi_traj, psi_traj', D_n) => Ok (psi_traj', psi_traj, D_n)
  | Raise e => Raise e
  end.
Proof.
  pose proof (evolve_pair_run self psi0 psi0' n_steps) as H.
  pose proof (evolve_pair_run self psi0' psi0 n_steps) as H'.
  cbv zeta in H, H'. rewrite H, H'.
  destruct (valid_vectorb self psi0), (valid_vectorb self psi0');
    try reflexivity.
  cbn [result snd]. now rewrite norm_rows_diff_swap.
Qed.

(** X4: no distance is negative.  Every entry of the distance array
    [evolve_pair] returns is NaN or has its sign bit clear ([+0.0], a
    positive number or [+inf]); [-0.0] does not occur either. *)
Theorem distances_not_negative (self : CGModel) (psi0 psi0' : ndarray)
    (n_steps : Z) :
  match result (evolve_pair self psi0 psi0' n_steps) with
  | Ok (_, _, D_n) => Forall (fun d => not_negative d = true) D_n
  | Raise _ => True
  end.
Proof.
  pose proof (evolve_pair_run self psi0 psi0' n_steps) as H.
  cbv zeta in H. rewrite H.
  destruct (valid_vectorb self psi0), (valid_vectorb self psi0');
    cbn [result snd]; try exact I.
  unfold norm_rows_diff. apply Forall_map, Forall_forall.
  intros v _. apply norm_not_negative.
Qed.

End Distances.

(** ** More on the exponent estimate *)

Section EstimateResults.

Variable np : numpy.
Variable self : CGModel.
Variables psi0 psi0' : ndarray.
Variables n_steps fit_start fit_end : Z.

(** A call that returns has passed both checks and returns what the fit
    was given. *)
Lemma estimate_Ok_inv (lambda_hat : f64) (n_fit : list Z) (logD_fit : list f64) :
  result (estimate_lambda_CG np self psi0 psi0' n_steps fit_start fit_end)
    = Ok (lambda_hat, n_fit, logD_fit) ->
  let lo := Z.max fit_start 0 in
  let hi := Z.min fit_end n_steps in
  exists D_n intercept,
    Z.of_nat (length D_n) = (n_steps + 1)%Z /\
    (lo + 1 < hi)%Z /\
    n_fit = Zrange lo hi /\
    logD_fit = map (np_log np) (py_slice D_n lo hi) /\
    np_polyfit np n_fit logD_fit = Some (lambda_hat, intercept).
Proof.
  intros Hok lo hi.
  destruct (valid_vectorb self psi0) eqn:Hv.
  2:{ rewrite estimate_shape_error in Hok; [discriminate |].
      left. now apply valid_vectorb_false. }
  destruct (valid_vectorb self psi0') eqn:Hv'.
  2:{ rewrite estimate_shape_error in Hok; [discriminate |].
      right. now apply valid_vectorb_false. }
  apply valid_vectorb_spec in Hv, Hv'.
  destruct (estimate_lambda_CG_run np self psi0 psi0' n_steps
              fit_start fit_end Hv Hv') as (t & t' & D_n & _ & Hlen & Hrun).
  rewrite Hok in Hrun. cbv zeta in Hrun.
  destruct (Z.leb_spec (Z.min fit_end (Z.max n_steps 0))
                       (Z.max fit_start 0 + 1)) as [Hle | Hgt];
    [discriminate |].
  replace (Z.max n_steps 0) with n_steps in * by lia.
  unfold fit_result in Hrun.
  destruct (np_polyfit np _ _) as [[slope intercept] |] eqn:Hfit;
    [| discriminate].
  injection Hrun as -> -> ->.
  exists D_n, intercept. subst lo hi.
  split; [exact Hlen |]. split; [exact Hgt |].
  split; [apply py_slice_arange; lia |].
  split; [reflexivity | exact Hfit].
Qed.

(** X5: what a call that returns hands back.  The index array and the
    array of logarithms have the same length, at least 2; the indices are
    consecutive integers, all at least 0 and below [n_steps], so the last
    distance, at index [n_steps], is never part of a fit. *)
Theorem estimate_returns_matching_arrays
    (lambda_hat : f64) (n_fit : list Z) (logD_fit : list f64) :
  result (estimate_lambda_CG np self psi0 psi0' n_steps fit_start fit_end)
    = Ok (lambda_hat, n_fit, logD_fit) ->
  length n_fit = length logD_fit /\
  2 <= length n_fit /\
  (forall k, k < length n_fit -> nth k n_fit 0%Z = (nth 0 n_fit 0 + Z.of_nat k)%Z) /\
  Forall (fun i => (0 <= i < n_steps)%Z) n_fit.
Proof.
  intros Hok.
  destruct (estimate_Ok_inv _ _ _ Hok)
    as (D_n & intercept & Hlen & Hwin & Hn & Hl & _).
  assert (Hsize : length n_fit
                  = Z.to_nat (Z.min fit_end n_steps - Z.max fit_start 0))
    by (rewrite Hn; unfold Zrange; now rewrite length_map, length_seq).
  assert (Hnth : forall k, k < length n_fit ->
                 nth k n_fit 0%Z = (Z.max fit_start 0 + Z.of_nat k)%Z).
  { intros k Hk. rewrite Hn. unfold Zrange.
    rewrite nth_indep with (d' := Z.of_nat 0)
      by (rewrite length_map, length_seq; lia).
    rewrite map_nth, seq_nth by lia. lia. }
  split; [| split; [| split]].
  - apply Nat2Z.inj. rewrite Hl, length_map, py_slice_length by lia. lia.
  - lia.
  - intros k Hk. rewrite (Hnth k Hk), (Hnth 0) by lia. lia.
  - rewrite Hn. apply Forall_forall. intros i Hi.
    apply In_Zrange in Hi; lia.
Qed.

(** X6: the returned slope can be recomputed from the returned arrays,
    as [example_three_node.main] does for its plot: when the call returns
    [(lambda_hat, n_fit, logD_fit)], [np.polyfit(n_fit, logD_fit, deg=1)]
    does not raise and its slope is [lambda_hat]. *)
Theorem estimate_slope_round_trip
    (lambda_hat : f64) (n_fit : list Z) (logD_fit : list f64) :
  result (estimate_lambda_CG np self psi0 psi0' n_steps fit_start fit_end)
    = Ok (lambda_hat, n_fit, logD_fit) ->
  exists intercept, np_polyfit np n_fit logD_fit = Some (lambda_hat, intercept).
Proof.
  intros Hok.
  destruct (estimate_Ok_inv _ _ _ Hok) as (D_n & intercept & _ & _ & _ & _ & H).
  now exists intercept.
Qed.

(** X7: a run of fewer than two steps cannot be fitted.  On two vectors
    the model accepts and [n_steps < 2], the call raises the window error
    whatever [fit_start] and [fit_end] are. *)
Theorem estimate_short_run :
  constructed self -> valid_vector self psi0 -> valid_vector self psi0' ->
  (n_steps < 2)%Z ->
  result (estimate_lambda_CG np self psi0 psi0' n_steps fit_start fit_end)
    = Raise window_error.
Proof.
  intros _ Hv Hv' Hn.
  destruct (estimate_lambda_CG_run np self psi0 psi0' n_steps
              fit_start fit_end Hv Hv') as (t & t' & D_n & _ & _ & Hrun).
  rewrite Hrun. cbv zeta.
  destruct (Z.leb_spec (Z.min fit_end (Z.max n_steps 0))
                       (Z.max fit_start 0 + 1)); [reflexivity | lia].
Qed.

End EstimateResults.

Section EstimateResultsExamples.

Lemma estimate_returns_matching_arrays_shear :
  length [1; 2; 3; 4]%Z = length [nan; nan; nan; nan] /\
  2 <= length [1; 2; 3; 4]%Z /\
  (forall k, k < length [1; 2; 3; 4]%Z ->
     nth k [1; 2; 3; 4]%Z 0%Z = (nth 0 [1; 2; 3; 4] 0 + Z.of_nat k)%Z) /\
  Forall (fun i => (0 <= i < 6)%Z) [1; 2; 3; 4]%Z.
Proof.
  apply (estimate_returns_matching_arrays sample_numpy shear_model
           shear_vector shear_vector' 6 1 5 nan).
  reflexivity.
Defined.

Lemma estimate_slope_round_trip_shear :
  exists intercept,
    np_polyfit sample_numpy [1; 2; 3; 4]%Z [nan; nan; nan; nan]
    = Some (nan, intercept).
Proof.
  apply (estimate_slope_round_trip sample_numpy shear_model
           shear_vector shear_vector' 6 1 5).
  reflexivity.
Defined.

Lemma estimate_short_run_shear :
  result (estimate_lambda_CG sample_numpy shear_model shear_vector
            shear_vector' 1 0 150) = Raise window_error.
Proof.
  apply (estimate_short_run sample_numpy shear_model shear_vector
           shear_vector' 1 0 150).
  - exists (T_infty shear_model). reflexivity.
  - split; reflexivity.
  - split; reflexivity.
  - reflexivity.
Defined.

End EstimateResultsExamples.

(** ** More on the spectral diagnostics *)

Section Maximum.

Lemma maximum_nan (a b : f64) : is_nan a = true -> maximum a b = a.
Proof. unfold maximum. intros ->. now rewrite orb_true_r. Qed.

Lemma fold_maximum_nan (xs : list f64) :
  forall a, is_nan a = true -> fold_left maximum xs a = a.
Proof.
  induction xs as [| x xs IH]; intros a Ha; cbn [fold_left]; [reflexivity |].
  rewrite maximum_nan by exact Ha. now apply IH.
Qed.

Lemma fold_maximum_In (xs : list f64) :
  forall a, In (fold_left maximum xs a) (a :: xs).
Proof.
  induction xs as [| x xs IH]; intros a; cbn [fold_left]; [now left |].
  destruct (IH (maximum a x)) as [H | H].
  - rewrite <- H. unfold maximum.
    destruct (leb x a || is_nan a); [now left | right; now left].
  - right. now right.
Qed.

Lemma fold_maximum_Exists_nan (xs : list f64) :
  forall a, Exists (fun x => is_nan x = true) (a :: xs) ->
  is_nan (fold_left maximum xs a) = true.
Proof.
  induction xs as [| x xs IH]; intros a Hex; cbn [fold_left].
  - inversion Hex as [? ? H | ? ? H]; [exact H | inversion H].
  - destruct (is_nan a) eqn:Ha.
    + rewrite maximum_nan by exact Ha.
      apply IH. now left.
    + apply IH. inversion Hex as [? ? H | ? ? H]; [congruence |].
      unfold maximum. rewrite Ha, orb_false_r.
      inversion H as [? ? Hx | ? ? Hxs].
      * left. destruct x; try discriminate.
        now destruct a.
      * destruct (leb x a); right; exact Hxs.
Qed.

Lemma fold_maximum_upper (xs : list f64) :
  forall a, Forall (fun x => is_nan x = false) (a :: xs) ->
  Forall (fun x => leb x (fold_left maximum xs a) = true) (a :: xs).
Proof.
  induction xs as [| x xs IH]; intros a Hall; cbn [fold_left].
  - constructor; [| constructor].
    apply Float64Order.leb_refl. now inversion Hall.
  - inversion Hall as [| ? ? Ha Hrest]; subst.
    inversion Hrest as [| ? ? Hx Hxs]; subst.
    assert (Hm : is_nan (maximum a x) = false)
      by (unfold maximum; now destruct (leb x a || is_nan a)).
    specialize (IH (maximum a x) (Forall_cons _ Hm Hxs)).
    inversion IH as [| ? ? Htop Hbelow]; subst.
    assert (Ha' : leb a (maximum a x) = true /\ leb x (maximum a x) = true).
    { unfold maximum. rewrite Ha, orb_false_r.
      destruct (leb x a) eqn:Hxa.
      - split; [now apply Float64Order.leb_refl | exact Hxa].
      - split; [now apply Float64Order.leb_total
               | now apply Float64Order.leb_refl]. }
    destruct Ha' as (Hale & Hxle).
    constructor; [eapply Float64Order.leb_trans; eassumption |].
    constructor; [eapply Float64Order.leb_trans; eassumption | exact Hbelow].
Qed.

(** [np.max]: it fails on an empty array only; the value it returns is an
    entry, NaN as soon as an entry is NaN, and otherwise an entry no
    other exceeds. *)
Lemma np_max_spec (xs : list f64) :
  match xs with
  | [] => exists msg, result (np_max xs) = Raise (ValueError msg)
  | _ :: _ =>
      exists top,
        result (np_max xs) = Ok top /\
        In top xs /\
        (Exists (fun x => is_nan x = true) xs -> is_nan top = true) /\
        (Forall (fun x => is_nan x = false) xs ->
         Forall (fun x => leb x top = true) xs)
  end.
Proof.
  destruct xs as [| a xs]; [eexists; reflexivity |].
  exists (fold_left maximum xs a).
  split; [reflexivity |]. split; [apply fold_maximum_In |].
  split; [apply fold_maximum_Exists_nan | apply fold_maximum_upper].
Qed.

End Maximum.

Section LargestValues.

Variable np : numpy.
Variable self : CGModel.

(** X8: [operator_norm] returns the largest singular value that
    [np.linalg.svd] reports.  It raises when the decomposition raises and
    when it reports no singular value (the 0 x 0 matrix); otherwise the
    value returned is one of the reported values, NaN as soon as one of
    them is NaN, and else a value that none of them exceeds. *)
Theorem operator_norm_largest :
  match linalg_svd np (T_infty self) with
  | None => result (operator_norm np self) = Raise LinAlgError
  | Some [] => exists msg, result (operator_norm np self) = Raise (ValueError msg)
  | Some svals =>
      exists top,
        result (operator_norm np self) = Ok top /\
        In top svals /\
        (Exists (fun x => is_nan x = true) svals -> is_nan top = true) /\
        (Forall (fun x => is_nan x = false) svals ->
         Forall (fun x => leb x top = true) svals)
  end.
Proof.
  unfold operator_norm. rewrite result_bind.
  destruct (linalg_svd np (T_infty self)) as [svals |]; [| reflexivity].
  cbn [linalg ret result snd].
  pose proof (np_max_spec svals) as H.
  destruct svals; exact H.
Qed.

(** X9: [spectral_radius] returns the largest modulus among the
    eigenvalues that [np.linalg.eigvals] reports, in the same sense: it
    raises when the routine raises and when there is no eigenvalue;
    otherwise the value returned is the modulus of a reported eigenvalue,
    NaN as soon as a modulus is NaN, and else one that no modulus
    exceeds. *)
Theorem spectral_radius_largest :
  match linalg_eigvals np (T_infty self) with
  | None => result (spectral_radius np self) = Raise LinAlgError
  | Some [] => exists msg, result (spectral_radius np self) = Raise (ValueError msg)
  | Some eigvals =>
      exists top,
        result (spectral_radius np self) = Ok top /\
        (exists z, In z eigvals /\ top = np_abs np z) /\
        (Exists (fun z => is_nan (np_abs np z) = true) eigvals ->
         is_nan top = true) /\
        (Forall (fun z => is_nan (np_abs np z) = false) eigvals ->
         Forall (fun z => leb (np_abs np z) top = true) eigvals)
  end.
Proof.
  unfold spectral_radius. rewrite result_bind.
  destruct (linalg_eigvals np (T_infty self)) as [eigvals |]; [| reflexivity].
  cbn [linalg ret result snd].
  pose proof (np_max_spec (map (np_abs np) eigvals)) as H.
  destruct eigvals as [| z eigvals]; [exact H |].
  set (zs := z :: eigvals) in *. cbn [map] in H. fold (map (np_abs np) zs) in H.
  destruct H as (top & Hrun & Hin & Hnan & Hup).
  exists top. split; [exact Hrun |]. split; [| split].
  - apply in_map_iff in Hin. destruct Hin as (w & Hw & Hinw).
    now exists w.
  - intros Hex. apply Hnan. rewrite Exists_exists in *.
    destruct Hex as (w & Hw & Hnanw). exists (np_abs np w).
    split; [now apply in_map | exact Hnanw].
  - intros Hall.
    assert (Hmap : Forall (fun x => is_nan x = false) (map (np_abs np) zs)).
    { apply Forall_forall. intros x Hx. apply in_map_iff in Hx.
      destruct Hx as (u & <- & Hu).
      rewrite Forall_forall in Hall. now apply Hall. }
    specialize (Hup Hmap). rewrite Forall_forall in Hup.
    apply Forall_forall. intros w Hw. now apply Hup, in_map.
Qed.

End LargestValues.

(** ** Powers of the propagator *)

Section Powers.

Lemma matmul_shape (a b : ndarray) :
  shape (matmul a b) = [shape_at a 0; shape_at b 1].
Proof.
  unfold matmul, of_rows. cbn [shape].
  now rewrite length_map, length_seq.
Qed.

Lemma concat_rows_length {A B : Type} (f : A -> list B) (c : nat) (l : list A) :
  (forall i, length (f i) = c) -> length (concat (map f l)) = length l * c.
Proof.
  intros Hf. induction l as [| i l IH]; [reflexivity |].
  cbn [map concat length]. rewrite length_app, Hf, IH. lia.
Qed.

Lemma matmul_well_formed (a b : ndarray) : well_formed (matmul a b).
Proof.
  unfold well_formed. rewrite matmul_shape.
  unfold matmul, of_rows. cbn [data fold_right].
  rewrite concat_rows_length with (c := shape_at b 1)
    by (intros i; now rewrite length_map, length_seq).
  rewrite length_seq. lia.
Qed.

Lemma matmul_square (d : nat) (a b : ndarray) :
  shape a = [d; d] -> shape b = [d; d] -> shape (matmul a b) = [d; d].
Proof.
  intros Ha Hb. rewrite matmul_shape. unfold shape_at. now rewrite Ha, Hb.
Qed.

Lemma power_bits_square (d : nat) (n : positive) :
  forall z acc,
  shape z = [d; d] /\ well_formed z ->
  (forall r, acc = Some r -> shape r = [d; d] /\ well_formed r) ->
  shape (power_bits z acc n) = [d; d] /\ well_formed (power_bits z acc n).
Proof.
  induction n as [n IH | n IH |]; intros z acc (Hz & Hwz) Hacc; cbn [power_bits].
  - apply IH.
    + split; [now apply matmul_square | apply matmul_well_formed].
    + intros r [= <-]. destruct acc as [r |].
      * destruct (Hacc r eq_refl) as (Hr & _).
        split; [now apply matmul_square | apply matmul_well_formed].
      * now split.
  - apply IH; [| exact Hacc].
    split; [now apply matmul_square | apply matmul_well_formed].
  - destruct acc as [r |]; [| now split].
    destruct (Hacc r eq_refl) as (Hr & _).
    split; [now apply matmul_square | apply matmul_well_formed].
Qed.

Lemma matrix_power_square (d : nat) (a : ndarray) (n : positive) :
  shape a = [d; d] -> well_formed a ->
  shape (matrix_power a n) = [d; d] /\ well_formed (matrix_power a n).
Proof.
  intros Ha Hwa.
  assert (Hbits : shape (power_bits a None n) = [d; d] /\
                  well_formed (power_bits a None n))
    by (apply power_bits_square; [now split | discriminate]).
  assert (H2 : shape (matmul a a) = [d; d]) by now apply matmul_square.
  unfold matrix_power.
  destruct n as [[n | n |] | [n | n |] |]; try exact Hbits.
  split; [now apply matmul_square | apply matmul_well_formed].
Qed.

Lemma constructed_shape (self : CGModel) :
  constructed self -> shape (T_infty self) = [dim self; dim self].
Proof.
  intros H. apply constructed_square in H. destruct H as (Hd & Hs).
  unfold dim, ndim, shape_at in *.
  destruct (shape (T_infty self)) as [| r [| c [| x rest]]]; try discriminate.
  cbn [nth] in *. now subst.
Qed.

(** X10: every power of the stored matrix is again a matrix a model can
    hold.  For [n >= 1], [matrix_power(T_infty, n)] is square of the
    model's dimension, with as many entries as its shape announces when
    [T_infty] has, so that constructing a model from it succeeds; and
    [power_norm(n)] is [operator_norm()] of that model. *)
Theorem power_norm_of_power (np : numpy) (self : CGModel) (n : Z) :
  constructed self -> well_formed (T_infty self) -> (1 <= n)%Z ->
  let Tn := matrix_power (T_infty self) (Z.to_pos n) in
  result (__post_init__ Tn) = Ok {| T_infty := Tn |} /\
  dim {| T_infty := Tn |} = dim self /\
  well_formed Tn /\
  power_norm np self n = operator_norm np {| T_infty := Tn |}.
Proof.
  intros Hc Hwf Hn Tn.
  destruct (matrix_power_square (dim self) (T_infty self) (Z.to_pos n)
              (constructed_shape self Hc) Hwf) as (Hshape & Hwfn).
  fold Tn in Hshape, Hwfn.
  split; [| split; [| split]].
  - rewrite post_init_run. unfold ndim, shape_at. rewrite Hshape.
    cbn [length nth]. now rewrite !Nat.eqb_refl.
  - unfold dim, shape_at. cbn [T_infty]. now rewrite Hshape.
  - exact Hwfn.
  - unfold power_norm. destruct (Z.ltb_spec n 1); [lia | reflexivity].
Qed.

Lemma power_norm_of_power_shear :
  let Tn := matrix_power (T_infty shear_model) (Z.to_pos 5) in
  result (__post_init__ Tn) = Ok {| T_infty := Tn |} /\
  dim {| T_infty := Tn |} = dim shear_model /\
  well_formed Tn /\
  power_norm sample_numpy shear_model 5
  = operator_norm sample_numpy {| T_infty := Tn |}.
Proof.
  apply (power_norm_of_power sample_numpy shear_model 5).
  - exists (T_infty shear_model). reflexivity.
  - reflexivity.
  - lia.
Defined.

(** X11: [power_norm] raises its range error exactly for [n < 1]: for
    every such [n] the call ends with [ValueError("n must be >= 1")], and
    for [n >= 1] it never does, whatever the decomposition returns. *)
Theorem power_norm_range (np : numpy) (self : CGModel) (n : Z) :
  result (power_norm np self n) = Raise (ValueError "n must be >= 1"%string)
  <-> (n < 1)%Z.
Proof.
  unfold power_norm. destruct (Z.ltb_spec n 1) as [Hlt | Hge].
  - split; [intros _; exact Hlt | reflexivity].
  - split; [| lia]. rewrite result_bind.
    destruct (linalg_svd np _) as [[| s svals] |]; cbn; discriminate.
Qed.

End Powers.

(** ** The pentagon propagator and the self-test *)

Section Pentagon.

(** X12: the matrix [build_pentagon_circulation_propagator] builds, for
    every [eta] and [damping].  It is 5 x 5 with 25 entries.  The entry in
    row [r] and column [c] is [(1.0 - damping) * 1.0 + eta * 0.0] on the
    diagonal, [(1.0 - damping) * 0.0 + eta * 1.0] where [r] is
    [(c + 1) % 5] (the edge [c -> r] of the directed cycle), and
    [(1.0 - damping) * 0.0 + eta * 0.0] elsewhere. *)
Theorem pentagon_entries (eta damping : f64) (r c : nat) :
  r < 5 -> c < 5 ->
  let T := build_pentagon_circulation_propagator eta damping in
  shape T = [5; 5] /\
  length (data T) = 25 /\
  getitem T r c =
    add (mul (sub one damping) (if r =? c then one else zero))
        (mul eta (if r =? (c + 1) mod 5 then one else zero)).
Proof.
  intros Hr Hc T.
  split; [reflexivity |]. split; [reflexivity |].
  do 5 (destruct r as [| r]; [
    do 5 (destruct c as [| c]; [reflexivity |]); lia |]).
  lia.
Qed.

Lemma pentagon_entries_corner :
  let T := build_pentagon_circulation_propagator one zero in
  shape T = [5; 5] /\
  length (data T) = 25 /\
  getitem T 0 4 =
    add (mul (sub one zero) (if 0 =? 4 then one else zero))
        (mul one (if 0 =? (4 + 1) mod 5 then one else zero)).
Proof.
  apply (pentagon_entries one zero 0 4); lia.
Defined.

(** X13: the self-test of [cg_model.main] and of [vid_lattice_demo.main]
    cannot fail on a shape or on the window.  For every [eta] and
    [damping] the pentagon propagator is accepted by the constructor and
    gives a model of dimension 5; on any two vectors of length 5 and with
    [n_steps=200, fit_start=10, fit_end=150] there are 201 distances and
    the estimator ends as the fit of the 140 indices 10..149 ends. *)
Theorem pentagon_self_test (np : numpy) (eta damping : f64)
    (psi0 psi0' : ndarray) :
  ndim psi0 = 1 -> shape_at psi0 0 = 5 ->
  ndim psi0' = 1 -> shape_at psi0' 0 = 5 ->
  exists self traj traj' D_n,
    result (__post_init__ (build_pentagon_circulation_propagator eta damping))
      = Ok self /\
    dim self = 5 /\
    result (evolve_pair self psi0 psi0' default_n_steps)
      = Ok (traj, traj', D_n) /\
    length D_n = 201 /\
    result (estimate_lambda_CG np self psi0 psi0' default_n_steps
              default_fit_start default_fit_end)
      = fit_result np (Zrange 10 150)
          (map (np_log np) (py_slice D_n 10 150)) /\
    length (Zrange 10 150) = 140 /\
    length (py_slice D_n 10 150) = 140.
Proof.
  intros Hd Hs Hd' Hs'.
  set (self := {| T_infty := build_pentagon_circulation_propagator eta damping |}).
  assert (Hc : constructed self)
    by (exists (T_infty self); reflexivity).
  assert (Hv : valid_vector self psi0) by (split; assumption).
  assert (Hv' : valid_vector self psi0') by (split; assumption).
  destruct (estimate_lambda_CG_fit np self psi0 psi0' default_n_steps
              default_fit_start default_fit_end Hc Hv Hv' eq_refl)
    as (traj & traj' & D_n & Hpair & Hlen & Hrun).
  change (Z.max default_fit_start 0) with 10%Z in Hrun.
  change (Z.min default_fit_end default_n_steps) with 150%Z in Hrun.
  change (default_n_steps + 1)%Z with 201%Z in Hlen.
  exists self, traj, traj', D_n.
  split; [reflexivity |]. split; [reflexivity |].
  split; [exact Hpair |]. split; [lia |].
  split; [rewrite Hrun, py_slice_arange by lia; reflexivity |].
  split; [reflexivity |].
  apply Nat2Z.inj. rewrite py_slice_length; lia.
Qed.

Lemma pentagon_self_test_ones :
  let ones := of_vector [one; one; one; one; one] in
  exists self traj traj' D_n,
    result (__post_init__ (build_pentagon_circulation_propagator one zero))
      = Ok self /\
    dim self = 5 /\
    result (evolve_pair self ones ones default_n_steps)
      = Ok (traj, traj', D_n) /\
    length D_n = 201 /\
    result (estimate_lambda_CG sample_numpy self ones ones default_n_steps
              default_fit_start default_fit_end)
      = fit_result sample_numpy (Zrange 10 150)
          (map (np_log sample_numpy) (py_slice D_n 10 150)) /\
    length (Zrange 10 150) = 140 /\
    length (py_slice D_n 10 150) = 140.
Proof.
  apply (pentagon_self_test sample_numpy one zero
           (of_vector [one; one; one; one; one])
           (of_vector [one; one; one; one; one])); reflexivity.
Defined.

End Pentagon.
